(** * Siemens AI programming assistant: session controller and program compiler

    A shallow embedding of [src/App.tsx] (the session controller: the
    handlers [handleReset], [handleStopGeneration] and [handleSendMessage])
    and of the value types of the repository's [types] module, together with
    a model of the program compiler [generateSiemensCode], whose source is
    not part of the sources at hand and is modelled from the specification.

    JavaScript [number]s are modelled as exact rationals ([Q]); strings as
    byte strings ([string], UTF-8); React state as one record that every
    [set...] call updates in program order. *)

From Stdlib Require Import ZArith QArith Qabs Qround List String Ascii Bool Lia Lqa DecimalString.
From Stdlib Require Import DecimalZ DecimalPos.
Import ListNotations.
Local Open Scope string_scope.
Set Warnings "-register-all".

(** ** JavaScript helpers used by the controller *)

Module Js.

(** [s.includes(needle)]: substring search. *)
Fixpoint includes (s needle : string) : bool :=
  if String.prefix needle s then true
  else match s with
       | EmptyString => false
       | String _ rest => includes rest needle
       end.

(** Truthiness of a string value: only the empty string is falsy. *)
Definition truthy (s : string) : bool :=
  match s with EmptyString => false | _ => true end.

(** Truthiness of a possibly [undefined] string property. *)
Definition truthy_opt (o : option string) : bool :=
  match o with Some s => truthy s | None => false end.

(** [(n).toString()] for an integral number. *)
Definition toString (n : Z) : string := NilZero.string_of_int (Z.to_int n).

Definition quote_char : ascii := ascii_of_nat 34.
Definition backslash : ascii := ascii_of_nat 92.

Definition hex_digit (n : nat) : ascii :=
  if Nat.ltb n 10 then ascii_of_nat (48 + n) else ascii_of_nat (87 + n).

(** One character of [QuoteJSONString]: the quote, the backslash and the
    control characters are escaped, everything else is copied. *)
Definition escape_char (c : ascii) : string :=
  let n := nat_of_ascii c in
  if Nat.eqb n 34 then String backslash (String quote_char EmptyString)
  else if Nat.eqb n 92 then String backslash (String backslash EmptyString)
  else if Nat.eqb n 8 then String backslash "b"
  else if Nat.eqb n 9 then String backslash "t"
  else if Nat.eqb n 10 then String backslash "n"
  else if Nat.eqb n 12 then String backslash "f"
  else if Nat.eqb n 13 then String backslash "r"
  else if Nat.ltb n 32 then
    String backslash
      ("u00" ++ String (hex_digit (n / 16)) (String (hex_digit (n mod 16)) EmptyString))
  else String c EmptyString.

Fixpoint escape (s : string) : string :=
  match s with
  | EmptyString => EmptyString
  | String c rest => escape_char c ++ escape rest
  end.

Definition quote (s : string) : string :=
  String quote_char (escape s ++ String quote_char EmptyString).

(** The values [JSON.stringify] walks.  Numbers are the integral ones,
    printed in plain decimal. *)
Inductive Json : Type :=
| JNull
| JBool (b : bool)
| JNumber (n : Z)
| JString (s : string)
| JArray (items : list Json)
| JObject (members : list (string * Json)).

(** [JSON.stringify(v)] without indentation. *)
Fixpoint stringify (j : Json) : string :=
  match j with
  | JNull => "null"
  | JBool true => "true"
  | JBool false => "false"
  | JNumber n => toString n
  | JString s => quote s
  | JArray items =>
      "[" ++
      (fix elements (l : list Json) : string :=
         match l with
         | [] => ""
         | x :: r =>
             match r with
             | [] => stringify x
             | _ :: _ => stringify x ++ "," ++ elements r
             end
         end) items ++ "]"
  | JObject members =>
      "{" ++
      (fix entries (l : list (string * Json)) : string :=
         match l with
         | [] => ""
         | (k, v) :: r =>
             match r with
             | [] => quote k ++ ":" ++ stringify v
             | _ :: _ => quote k ++ ":" ++ stringify v ++ "," ++ entries r
             end
         end) members ++ "}"
  end.

(** What a rejected promise usually carries ([err: any] in the [catch]
    clause): a string primitive, or an object whose properties [name] and
    [message] are each [undefined] or a string.  Of an object the
    controller reads these two properties and serialises the enumerable
    own properties.  An [Error] instance has [name] on its prototype and a
    non-enumerable [message], so neither appears in [enumerable].  The
    other values ([null], [undefined], properties that are not strings)
    are in [Any] below. *)
Inductive Thrown : Type :=
| ThrownString (s : string)
| ThrownObject (name message : option string) (enumerable : list (string * Json)).

(** [err.name] *)
Definition name_of (err : Thrown) : option string :=
  match err with
  | ThrownString _ => None
  | ThrownObject n _ _ => n
  end.

(** [err.message] *)
Definition message_of (err : Thrown) : option string :=
  match err with
  | ThrownString _ => None
  | ThrownObject _ m _ => m
  end.

(** [JSON.stringify(err)] *)
Definition stringify_thrown (err : Thrown) : string :=
  match err with
  | ThrownString s => quote s
  | ThrownObject _ _ props => stringify (JObject props)
  end.

(** [new Error(message)] *)
Definition new_Error (message : string) : Thrown :=
  ThrownObject (Some "Error") (Some message) [].

(** The [DOMException] an aborted [fetch] rejects with. *)
Definition AbortError : Thrown :=
  ThrownObject (Some "AbortError") (Some "The user aborted a request.") [].

(** *** Every value the [catch] clause can be handed ([err: any])

    [Thrown] above holds the values the clause reads without failing on
    the way to its abort test.  What follows adds the rest: [null] and
    [undefined], the other primitives, arrays, properties that are not
    strings, and values [JSON.stringify] has no text for. *)

(** The value of a property: [undefined], a string, or a value that is
    neither and has no [includes] method (a number, a boolean, [null], an
    object), of the given truthiness. *)
Inductive Property : Type :=
| Absent
| Str (s : string)
| Other (truthy : bool).

(** A JavaScript value, as far as the [catch] clause looks at it.  Of a
    number: the text [JSON.stringify] prints for it.  Of an object: its
    properties [name] and [message] (own or inherited) and its enumerable
    own properties.  [AUnserialisable] is a value for which
    [JSON.stringify] returns [undefined] or throws (a function, a symbol,
    a BigInt, a cyclic object). *)
Inductive Any : Type :=
| AUndefined
| ANull
| ABoolean (b : bool)
| ANumber (printed : string)
| AString (s : string)
| AArray (items : list Json)
| AObject (name message : Property) (enumerable : list (string * Json))
| AUnserialisable (name message : Property).

(** How an expression completes: with a value, or by throwing (here
    always a [TypeError]). *)
Inductive Completion (A : Type) : Type :=
| Normal (a : A)
| Throws.

Arguments Normal {A} a.
Arguments Throws {A}.

(** [err === null || err === undefined]: the values no property can be
    read of. *)
Definition nullish (err : Any) : bool :=
  match err with
  | AUndefined | ANull => true
  | _ => false
  end.

(** [err.name], of a value that is not nullish. *)
Definition name_any (err : Any) : Property :=
  match err with
  | AObject n _ _ | AUnserialisable n _ => n
  | _ => Absent
  end.

(** [err.message], of a value that is not nullish. *)
Definition message_any (err : Any) : Property :=
  match err with
  | AObject _ m _ | AUnserialisable _ m => m
  | _ => Absent
  end.

(** [JSON.stringify(err)], when it returns a string. *)
Definition stringify_any (err : Any) : option string :=
  match err with
  | AUndefined => None
  | ANull => Some (stringify JNull)
  | ABoolean b => Some (stringify (JBool b))
  | ANumber printed => Some printed
  | AString s => Some (stringify (JString s))
  | AArray items => Some (stringify (JArray items))
  | AObject _ _ props => Some (stringify (JObject props))
  | AUnserialisable _ _ => None
  end.

(** [p === s] for a string literal [s]. *)
Definition strict_equals (p : Property) (s : string) : bool :=
  match p with
  | Str x => String.eqb x s
  | _ => false
  end.

(** Truthiness of a property value. *)
Definition truthy_property (p : Property) : bool :=
  match p with
  | Absent => false
  | Str s => truthy s
  | Other b => b
  end.

(** [p.includes(needle)]: only a string has the method. *)
Definition property_includes (p : Property) (needle : string) : Completion bool :=
  match p with
  | Str s => Normal (includes s needle)
  | _ => Throws
  end.

Definition property_of (o : option string) : Property :=
  match o with
  | Some s => Str s
  | None => Absent
  end.

(** A [Thrown] as a value among all the others. *)
Definition of_thrown (err : Thrown) : Any :=
  match err with
  | ThrownString s => AString s
  | ThrownObject n m props => AObject (property_of n) (property_of m) props
  end.

End Js.

(** ** The value types ([types] module) *)

Module MachineOperationType.
Inductive t : Set :=
| CIRCULAR_POCKET | RECTANGULAR_POCKET | DRILL | FACE_MILL | CONTOUR | UNKNOWN.
End MachineOperationType.

Module ToolType.
Inductive t : Set := END_MILL | BALL_MILL | DRILL | FACE_MILL.

Definition eqb (a b : t) : bool :=
  match a, b with
  | END_MILL, END_MILL | BALL_MILL, BALL_MILL | DRILL, DRILL | FACE_MILL, FACE_MILL => true
  | _, _ => false
  end.
End ToolType.

Module StockDimensions.
Inductive Shape : Set := RECTANGULAR | CYLINDRICAL.

Record t : Set := mk {
  shape : Shape;
  width : Q;
  length : Q;
  height : Q;
  diameter : Q;
  material : string
}.
End StockDimensions.

Module PathSegment.
Inductive SegmentType : Set := LINE | ARC_CW | ARC_CCW.

Record t : Set := mk {
  type : SegmentType;
  x : Q;
  y : Q;
  cx : option Q;
  cy : option Q;
  radius : option Q
}.
End PathSegment.

Module OperationParams.
Record t : Set := mk {
  type : MachineOperationType.t;
  x : Q;
  y : Q;
  z_start : Q;
  z_depth : Q;
  diameter : option Q;
  width : option Q;
  length : option Q;
  path_segments : option (list PathSegment.t);
  feed_rate : Q;
  spindle_speed : Q;
  tool_diameter : Q;
  tool_type : ToolType.t;
  step_down : Q
}.
End OperationParams.

Module CNCOutput.
Record t : Set := mk {
  gcode : string;
  explanation : string;
  operations : list OperationParams.t;
  stock : StockDimensions.t
}.
End CNCOutput.

Inductive Role : Set := user | ai.

Module ChatMessage.
Record t : Set := mk {
  id : string;
  role : Role;
  text : string;
  attachment : option string;
  cncResult : option CNCOutput.t
}.
End ChatMessage.

Inductive AppMode : Set := GENERATE | OPTIMIZE.

Inductive ModelOption : Set :=
| gemini_3_flash_preview | gemini_3_pro_preview | gemini_2_5_flash.

(** ** The program compiler ([services/cncGenerator]) *)

Module Compiler.
Local Open Scope Q_scope.

(** Modelled from the spec: the source of [generateSiemensCode] (module
    [services/cncGenerator]) is not among the sources; section 4.2 of the
    specification is followed.  A program is a list of motion lines; the
    program text is their rendering, one line each. *)
Inductive Line : Set :=
| Units                                   (* header: metric units *)
| WorkOffset                              (* header: work coordinate system *)
| ToolChange (tool : ToolType.t) (speed : Q)  (* tool change and spindle start *)
| Feed (f : Q)                            (* feed rate word *)
| RapidZ (z : Q)
| RapidXY (x y : Q)
| LinearZ (z : Q)
| LinearXY (x y : Q)
| Arc (cw : bool) (x y i j : Q)           (* end point and centre offsets *)
| ArcRadius (cw : bool) (x y r : Q).      (* end point and radius fallback *)

(** Modelled from the spec: the constants are left open by the
    specification; this one is the clearance of the safe Z. *)
Definition SAFE_CLEARANCE : Q := 5.

(** Modelled from the spec: the partial retract after a peck. *)
Definition CHIP_RETRACT : Q := 1.

(** Modelled from the spec: the fixed overlap fraction of the stepover. *)
Definition OVERLAP : Q := 1 # 2.

(** Modelled from the spec: the fixed decimal precision, three places. *)
Definition PRECISION_SCALE : Z := 1000.

(** Comparisons of numbers, as booleans. *)
Definition Qlt_bool (a b : Q) : bool := negb (Qle_bool b a).

Definition Qmax_bool (a b : Q) : Q := if Qle_bool a b then b else a.

Definition Qmin_bool (a b : Q) : Q := if Qle_bool a b then a else b.

(** Modelled from the spec: the depth loop of section 4.2 ("in
    increments of step_down from z_start to z_depth, the final increment
    landing exactly on z_depth").  [fuel] bounds the iterations. *)
Fixpoint step_down_loop (fuel : nat) (z step target : Q) : list Q :=
  match fuel with
  | O => []
  | S f =>
      let z' := z - step in
      if Qle_bool z' target then [target]
      else z' :: step_down_loop f z' step target
  end.

(** Modelled from the spec: the number of iterations that covers
    [span] in increments of [step], and one more. *)
Definition loop_fuel (span step : Q) : nat :=
  S (Z.to_nat (Qceiling (span / step))).

(** Modelled from the spec: the Z levels of an operation: stepped when
    step_down > 0, a single pass to z_depth when step_down is 0. *)
Definition depth_passes (z_start z_depth step : Q) : list Q :=
  if Qlt_bool 0 step
  then step_down_loop (loop_fuel (z_start - z_depth) step) z_start step z_depth
  else [z_depth].

(** Modelled from the spec: offsets growing from 0 out to [bound] in
    increments of [step], the last one exactly [bound]. *)
Fixpoint step_out_loop (fuel : nat) (r step bound : Q) : list Q :=
  match fuel with
  | O => []
  | S f =>
      let r' := r + step in
      if Qle_bool bound r' then [bound]
      else r' :: step_out_loop f r' step bound
  end.

(** Modelled from the spec: the offsets of the passes of a pocket or
    of a raster; a single pass at [bound] without a positive step. *)
Definition offsets (bound step : Q) : list Q :=
  if Qlt_bool 0 step
  then step_out_loop (loop_fuel bound step) 0 step bound
  else [bound].

(** Modelled from the spec: the lateral stepover, "computed from
    tool_diameter and a fixed overlap fraction". *)
Definition stepover (op : OperationParams.t) : Q :=
  OperationParams.tool_diameter op * (1 - OVERLAP).

(** Modelled from the spec: "a safe Z strictly above z_start and above
    stock height". *)
Definition safe_z (stock : StockDimensions.t) (op : OperationParams.t) : Q :=
  Qmax_bool (OperationParams.z_start op) (StockDimensions.height stock) + SAFE_CLEARANCE.

(** Modelled from the spec: the tool-change and spindle-start block is
    emitted only when tool_type or spindle_speed differs from the
    previous operation. *)
Definition same_tool (a b : OperationParams.t) : bool :=
  ToolType.eqb (OperationParams.tool_type a) (OperationParams.tool_type b)
  && Qeq_bool (OperationParams.spindle_speed a) (OperationParams.spindle_speed b).

(** Modelled from the spec: the tool block of an operation, given the
    operation before it. *)
Definition tool_block (prev : option OperationParams.t) (op : OperationParams.t) : list Line :=
  let change := [ToolChange (OperationParams.tool_type op) (OperationParams.spindle_speed op)] in
  match prev with
  | None => change
  | Some p => if same_tool p op then [] else change
  end.

(** Modelled from the spec: the peck depths of a drill operation. *)
Definition peck_depths (op : OperationParams.t) : list Q :=
  depth_passes (OperationParams.z_start op) (OperationParams.z_depth op)
               (OperationParams.step_down op).

(** Modelled from the spec: drill.  Rapid to (x,y); with step_down > 0
    every peck is followed by a partial retract; with step_down = 0 one
    plunge to z_depth. *)
Definition drill_body (op : OperationParams.t) : list Line :=
  RapidXY (OperationParams.x op) (OperationParams.y op)
  :: Feed (OperationParams.feed_rate op)
  :: (if Qlt_bool 0 (OperationParams.step_down op)
      then flat_map (fun d => [LinearZ d; RapidZ (d + CHIP_RETRACT)]) (peck_depths op)
      else [LinearZ (OperationParams.z_depth op)]).

(** Modelled from the spec: the bound of the no-gouge invariant,
    diameter/2 - tool_diameter/2. *)
Definition pocket_radius (diameter : Q) (op : OperationParams.t) : Q :=
  diameter / 2 - OperationParams.tool_diameter op / 2.

(** Modelled from the spec: one concentric pass: move out to the ring,
    cut the full circle. *)
Definition ring (cx cy r : Q) : list Line :=
  [LinearXY (cx + r) cy; Arc false (cx + r) cy (- r) 0].

(** Modelled from the spec: one Z layer of a circular pocket: plunge at
    the centre, then the rings from the centre out to the bound, then back
    to the centre. *)
Definition circular_layer (cx cy bound step z : Q) : list Line :=
  RapidXY cx cy :: LinearZ z
  :: flat_map (ring cx cy) (offsets bound step) ++ [LinearXY cx cy].

(** Modelled from the spec: circular pocket.  Without a diameter, or
    with a tool wider than the pocket, the block degrades to no motion
    in XY at all. *)
Definition circular_pocket_body (op : OperationParams.t) : list Line :=
  match OperationParams.diameter op with
  | None => []
  | Some d =>
      let bound := pocket_radius d op in
      if Qle_bool 0 bound
      then Feed (OperationParams.feed_rate op)
           :: flat_map (circular_layer (OperationParams.x op) (OperationParams.y op)
                                       bound (stepover op))
                       (peck_depths op)
      else []
  end.

(** Modelled from the spec: one rectangular pass with half extents
    (a, b) around the centre. *)
Definition rectangle (cx cy a b : Q) : list Line :=
  [LinearXY (cx + a) (cy + b); LinearXY (cx - a) (cy + b);
   LinearXY (cx - a) (cy - b); LinearXY (cx + a) (cy - b);
   LinearXY (cx + a) (cy + b)].

(** Modelled from the spec: one Z layer of a rectangular pocket, the
    passes growing out to the half extents (a, b). *)
Definition rectangular_layer (cx cy a b step z : Q) : list Line :=
  let m := Qmin_bool a b in
  RapidXY cx cy :: LinearZ z
  :: flat_map (fun t => rectangle cx cy (a - m + t) (b - m + t)) (offsets m step)
  ++ [LinearXY cx cy].

(** Modelled from the spec: rectangular pocket, bounded by
    (width/2 - tool_diameter/2, length/2 - tool_diameter/2). *)
Definition rectangular_pocket_body (op : OperationParams.t) : list Line :=
  match OperationParams.width op, OperationParams.length op with
  | Some w, Some l =>
      let a := pocket_radius w op in
      let b := pocket_radius l op in
      if Qle_bool 0 a && Qle_bool 0 b
      then Feed (OperationParams.feed_rate op)
           :: flat_map (rectangular_layer (OperationParams.x op) (OperationParams.y op)
                                          a b (stepover op))
                       (peck_depths op)
      else []
  | _, _ => []
  end.

(** Modelled from the spec: raster rows, the direction of travel
    alternating row by row. *)
Fixpoint raster (left_to_right : bool) (x0 x1 : Q) (rows : list Q) : list Line :=
  match rows with
  | [] => []
  | y :: rest =>
      let '(a, b) := if left_to_right then (x0, x1) else (x1, x0) in
      LinearXY a y :: LinearXY b y :: raster (negb left_to_right) x0 x1 rest
  end.

(** Modelled from the spec: the footprint of the stock; only the
    fields of its shape are read. *)
Definition footprint (stock : StockDimensions.t) : Q * Q :=
  match StockDimensions.shape stock with
  | StockDimensions.RECTANGULAR => (StockDimensions.width stock, StockDimensions.length stock)
  | StockDimensions.CYLINDRICAL => (StockDimensions.diameter stock, StockDimensions.diameter stock)
  end.

(** Modelled from the spec: face mill, raster passes over the stock
    footprint at z_depth. *)
Definition face_mill_body (stock : StockDimensions.t) (op : OperationParams.t) : list Line :=
  let '(w, l) := footprint stock in
  RapidXY 0 0 :: Feed (OperationParams.feed_rate op)
  :: LinearZ (OperationParams.z_depth op)
  :: raster true 0 w (0 :: offsets l (stepover op)).

(** Modelled from the spec: one contour segment, from the current
    point (px, py).  An arc keeps the direction of its tag whether it
    comes with a centre or with a radius; an arc with neither degrades
    to a straight move. *)
Definition segment_line (px py : Q) (s : PathSegment.t) : Line :=
  let x := PathSegment.x s in
  let y := PathSegment.y s in
  let arc cw :=
    match PathSegment.cx s, PathSegment.cy s, PathSegment.radius s with
    | Some cx, Some cy, _ => Arc cw x y (cx - px) (cy - py)
    | _, _, Some r => ArcRadius cw x y r
    | _, _, None => LinearXY x y
    end in
  match PathSegment.type s with
  | PathSegment.LINE => LinearXY x y
  | PathSegment.ARC_CW => arc true
  | PathSegment.ARC_CCW => arc false
  end.

(** Modelled from the spec: the segments of a contour in order, each
    from the end point of the one before. *)
Fixpoint segments (px py : Q) (l : list PathSegment.t) : list Line :=
  match l with
  | [] => []
  | s :: rest =>
      segment_line px py s :: segments (PathSegment.x s) (PathSegment.y s) rest
  end.

(** Modelled from the spec: contour, one plunge then the segments one
    to one. *)
Definition contour_body (op : OperationParams.t) : list Line :=
  match OperationParams.path_segments op with
  | None | Some [] => []
  | Some l =>
      RapidXY (OperationParams.x op) (OperationParams.y op)
      :: Feed (OperationParams.feed_rate op)
      :: LinearZ (OperationParams.z_depth op)
      :: segments (OperationParams.x op) (OperationParams.y op) l
  end.

(** Modelled from the spec: translation by operation kind; an unknown
    operation carries no geometry. *)
Definition body (stock : StockDimensions.t) (op : OperationParams.t) : list Line :=
  match OperationParams.type op with
  | MachineOperationType.DRILL => drill_body op
  | MachineOperationType.CIRCULAR_POCKET => circular_pocket_body op
  | MachineOperationType.RECTANGULAR_POCKET => rectangular_pocket_body op
  | MachineOperationType.FACE_MILL => face_mill_body stock op
  | MachineOperationType.CONTOUR => contour_body op
  | MachineOperationType.UNKNOWN => []
  end.

(** Modelled from the spec: the block of one operation: tool block
    when the tool changes, retract to the safe Z, the motion of the
    operation kind, retract again. *)
Definition operation_block (stock : StockDimensions.t) (prev : option OperationParams.t)
           (op : OperationParams.t) : list Line :=
  tool_block prev op
  ++ RapidZ (safe_z stock op) :: body stock op ++ [RapidZ (safe_z stock op)].

(** Modelled from the spec: operations are walked in ledger order. *)
Fixpoint operation_blocks (stock : StockDimensions.t) (prev : option OperationParams.t)
         (ops : list OperationParams.t) : list (list Line) :=
  match ops with
  | [] => []
  | op :: rest => operation_block stock prev op :: operation_blocks stock (Some op) rest
  end.

(** Modelled from the spec: one program header (units, work coordinate
    system selection). *)
Definition header : list Line := [Units; WorkOffset].

(** Modelled from the spec: the header, then the blocks in order. *)
Definition program (stock : StockDimensions.t) (ops : list OperationParams.t) : list Line :=
  header ++ List.concat (operation_blocks stock None ops).

(** Modelled from the spec: numeric formatting, every value rounded
    to three decimals (half away from zero) before emission. *)
Definition fixed (q : Q) : string :=
  let m := Qfloor (Qabs q * inject_Z PRECISION_SCALE + (1 # 2)) in
  let digits := Js.toString (PRECISION_SCALE + m mod PRECISION_SCALE) in
  let fraction := match digits with String _ r => r | EmptyString => EmptyString end in
  ((if Qlt_bool q 0 && Z.ltb 0 m then "-" else "")
     ++ Js.toString (m / PRECISION_SCALE) ++ "." ++ fraction)%string.

(** Modelled from the spec: the words of the controller dialect. *)
Definition tool_number (t : ToolType.t) : string :=
  match t with
  | ToolType.END_MILL => "T1"
  | ToolType.BALL_MILL => "T2"
  | ToolType.DRILL => "T3"
  | ToolType.FACE_MILL => "T4"
  end.

(** The line feed. *)
Definition newline : string := String (ascii_of_nat 10) EmptyString.

(** Modelled from the spec: the text of one line. *)
Definition render_line (l : Line) : string :=
  (match l with
   | Units => "G71"
   | WorkOffset => "G54"
   | ToolChange t s => tool_number t ++ " M6" ++ newline ++ "S" ++ fixed s ++ " M3"
   | Feed f => "F" ++ fixed f
   | RapidZ z => "G0 Z" ++ fixed z
   | RapidXY x y => "G0 X" ++ fixed x ++ " Y" ++ fixed y
   | LinearZ z => "G1 Z" ++ fixed z
   | LinearXY x y => "G1 X" ++ fixed x ++ " Y" ++ fixed y
   | Arc cw x y i j =>
       (if cw then "G2" else "G3") ++ " X" ++ fixed x ++ " Y" ++ fixed y
         ++ " I" ++ fixed i ++ " J" ++ fixed j
   | ArcRadius cw x y r =>
       (if cw then "G2" else "G3") ++ " X" ++ fixed x ++ " Y" ++ fixed y
         ++ " CR=" ++ fixed r
   end)%string.

(** Modelled from the spec: the program text, one line after the
    other. *)
Fixpoint render (lines : list Line) : string :=
  match lines with
  | [] => EmptyString
  | l :: rest => (render_line l ++ newline ++ render rest)%string
  end.

(** Modelled from the spec: [generateSiemensCode(stock, operations,
    explanation)]: the program text together with the echo of what was
    compiled.  Total: every input yields an output. *)
Definition generateSiemensCode (stock : StockDimensions.t)
           (operations : list OperationParams.t) (explanation : string) : CNCOutput.t :=
  CNCOutput.mk (render (program stock operations)) explanation operations stock.

(** The XY coordinates a list of lines moves to. *)
Definition xy_of (l : Line) : list (Q * Q) :=
  match l with
  | RapidXY x y | LinearXY x y | Arc _ x y _ _ | ArcRadius _ x y _ => [(x, y)]
  | _ => []
  end.

Definition xy_points (lines : list Line) : list (Q * Q) := flat_map xy_of lines.

(** The Z levels a list of lines cuts down to. *)
Definition plunge_of (l : Line) : list Q :=
  match l with
  | LinearZ z => [z]
  | _ => []
  end.

Definition plunges (lines : list Line) : list Q := flat_map plunge_of lines.

(** A natural number as a rational. *)
Definition count (n : nat) : Q := inject_Z (Z.of_nat n).

(** The k-th full step below [z] (k counted from 0). *)
Definition level (z step : Q) (k : nat) : Q := z - count (S k) * step.

(** A point lies within distance [r] of a centre (squared distances,
    so that no root is taken). *)
Definition within (centre : Q * Q) (r : Q) (p : Q * Q) : Prop :=
  0 <= r /\
  (fst p - fst centre) * (fst p - fst centre)
  + (snd p - snd centre) * (snd p - snd centre) <= r * r.

End Compiler.

(** ** The session controller ([App.tsx]) *)

Module App.
Local Open Scope list_scope.

(** Modelled from the spec: the attachment handed to the Analyzer
    (section 6: a payload and its declared media kind).  Its declaration
    is in [services/geminiService], which is not among the sources; the
    fields are the ones the controller reads. *)
Record Attachment : Set := mkAttachment {
  data : string;
  mimeType : string;
  fileName : string
}.

(** Modelled from the spec: the result of the Analyzer (section 6: an
    operation, a stock, an explanation and, optionally, a complete program
    text).  Its declaration is in [services/geminiService], which is not
    among the sources; the fields are the ones the controller reads. *)
Record Analysis : Set := mkAnalysis {
  operation : OperationParams.t;
  stock : StockDimensions.t;
  explanation : string;
  optimized_gcode : option string
}.

Inductive Tab : Set := chat | sim | code.

(** An [AbortController] is an object compared by identity: it is
    modelled by the number of its allocation. *)
Definition AbortController : Set := nat.

(** The component state: the [useState] cells, the [useRef] cell, and
    the part of the heap the handlers touch (which controllers were
    aborted, and how many were allocated). *)
Record State : Set := mkState {
  isProcessing : bool;
  cncData : option CNCOutput.t;
  messages : list ChatMessage.t;
  activeTab : Tab;
  operations : list OperationParams.t;
  currentStock : StockDimensions.t;
  abortControllerRef : option AbortController;
  aborted : list AbortController;
  allocated : nat
}.

Definition initialStock : StockDimensions.t :=
  StockDimensions.mk StockDimensions.RECTANGULAR 100 100 20 0 "Aluminum".

Definition initial : State :=
  mkState false None [] chat [] initialStock None [] 0.

Definition setIsProcessing (b : bool) (s : State) : State :=
  mkState b (cncData s) (messages s) (activeTab s) (operations s) (currentStock s)
          (abortControllerRef s) (aborted s) (allocated s).

Definition setCncData (d : option CNCOutput.t) (s : State) : State :=
  mkState (isProcessing s) d (messages s) (activeTab s) (operations s) (currentStock s)
          (abortControllerRef s) (aborted s) (allocated s).

(** [setMessages] takes an updater of the previous value. *)
Definition setMessages (f : list ChatMessage.t -> list ChatMessage.t) (s : State) : State :=
  mkState (isProcessing s) (cncData s) (f (messages s)) (activeTab s) (operations s)
          (currentStock s) (abortControllerRef s) (aborted s) (allocated s).

Definition setActiveTab (t : Tab) (s : State) : State :=
  mkState (isProcessing s) (cncData s) (messages s) t (operations s) (currentStock s)
          (abortControllerRef s) (aborted s) (allocated s).

Definition setOperations (ops : list OperationParams.t) (s : State) : State :=
  mkState (isProcessing s) (cncData s) (messages s) (activeTab s) ops (currentStock s)
          (abortControllerRef s) (aborted s) (allocated s).

Definition setCurrentStock (st : StockDimensions.t) (s : State) : State :=
  mkState (isProcessing s) (cncData s) (messages s) (activeTab s) (operations s) st
          (abortControllerRef s) (aborted s) (allocated s).

Definition setAbortControllerRef (r : option AbortController) (s : State) : State :=
  mkState (isProcessing s) (cncData s) (messages s) (activeTab s) (operations s)
          (currentStock s) r (aborted s) (allocated s).

(** [controller.abort()] *)
Definition abort (c : AbortController) (s : State) : State :=
  mkState (isProcessing s) (cncData s) (messages s) (activeTab s) (operations s)
          (currentStock s) (abortControllerRef s) (c :: aborted s) (allocated s).

(** [new AbortController()] *)
Definition newAbortController (s : State) : AbortController * State :=
  (allocated s,
   mkState (isProcessing s) (cncData s) (messages s) (activeTab s) (operations s)
           (currentStock s) (abortControllerRef s) (aborted s) (S (allocated s))).

Definition handleReset (s : State) : State :=
  setActiveTab chat (setMessages (fun _ => []) (setCncData None (setOperations [] s))).

Definition STOP_TEXT : string := "🛑 已停止生成。".

(** [now] is the value of [Date.now()]. *)
Definition handleStopGeneration (now : Z) (s : State) : State :=
  let s1 :=
    match abortControllerRef s with
    | Some c => setAbortControllerRef None (abort c s)
    | None => s
    end in
  let s2 := setIsProcessing false s1 in
  let stopMsg := ChatMessage.mk (Js.toString now) ai STOP_TEXT None None in
  setMessages (fun prev => prev ++ [stopMsg]) s2.

(** What a call of [handleSendMessage] holds on to across the [await]:
    its arguments, the [operations] of the render it was created in
    (the closure), its own controller and the prompt it sent. *)
Record Turn : Set := mkTurn {
  turn_mode : AppMode;
  turn_model : ModelOption;
  turn_operations : list OperationParams.t;
  turn_controller : AbortController;
  turn_prompt : string
}.

Definition mimeType_is (attachment : option Attachment) (m : string) : bool :=
  match attachment with
  | Some a => String.eqb (mimeType a) m
  | None => false
  end.

(** The prompt handed to [analyzeRequest] ("smart prompt defaults"). *)
Definition prompt_of (text : string) (attachment : option Attachment) (mode : AppMode) : string :=
  match mode with
  | GENERATE =>
      if Js.truthy text then text
      else if mimeType_is attachment "text/plain"
           then "分析这个 DXF/文本文件的数据并生成加工程序。"
      else if mimeType_is attachment "application/pdf"
           then "分析这张 PDF 图纸并生成加工程序。"
      else "分析这个图像/模型并生成加工程序。"
  | OPTIMIZE => text
  end.

Definition userMsg_text (text : string) (attachment : option Attachment) : string :=
  if Js.truthy text then text
  else match attachment with
       | Some a => ("已上传文件: " ++ fileName a)%string
       | None => "..."
       end.

(** [handleSendMessage] up to the [await]: the state it leaves behind
    and the pending turn. *)
Definition handleSendMessage_start (now : Z) (text : string) (attachment : option Attachment)
           (model : ModelOption) (mode : AppMode) (s : State) : State * Turn :=
  let captured := operations s in
  let s1 := setIsProcessing true s in
  let userMsg :=
    ChatMessage.mk (Js.toString now) user (userMsg_text text attachment)
                   (option_map data attachment) None in
  let s2 := setMessages (fun prev => prev ++ [userMsg]) s1 in
  let '(controller, s3) := newAbortController s2 in
  let s4 := setAbortControllerRef (Some controller) s3 in
  (s4, mkTurn mode model captured controller (prompt_of text attachment mode)).

(** The [finally] clause. *)
Definition finally (t : Turn) (s : State) : State :=
  match abortControllerRef s with
  | Some c =>
      if Nat.eqb c (turn_controller t)
      then setAbortControllerRef None (setIsProcessing false s)
      else s
  | None => s
  end.

(** [mode === 'OPTIMIZE' && analysis.optimized_gcode]: the program text
    when the condition is truthy. *)
Definition optimized_text (mode : AppMode) (analysis : Analysis) : option string :=
  match mode, optimized_gcode analysis with
  | OPTIMIZE, Some gcode => if Js.truthy gcode then Some gcode else None
  | _, _ => None
  end.

(** The [try] block after the [await], when the call resolved to
    [analysis].  [innerWidth] is [window.innerWidth]. *)
Definition on_resolved (now innerWidth : Z) (t : Turn) (analysis : Analysis) (s : State) : State :=
  let '(result, s1) :=
    match optimized_text (turn_mode t) analysis with
    | Some gcode =>
        let ops := [operation analysis] in
        (CNCOutput.mk gcode (explanation analysis) ops (stock analysis),
         setCurrentStock (stock analysis) (setOperations ops s))
    | None =>
        let newOps := turn_operations t ++ [operation analysis] in
        (Compiler.generateSiemensCode (stock analysis) newOps (explanation analysis),
         setCurrentStock (stock analysis) (setOperations newOps s))
    end in
  let s2 := setCncData (Some result) s1 in
  let s3 := if Z.ltb innerWidth 1024 then setActiveTab sim s2 else s2 in
  let aiMsg :=
    ChatMessage.mk (Js.toString (now + 1)) ai (CNCOutput.explanation result) None (Some result) in
  setMessages (fun prev => prev ++ [aiMsg]) s3.

Definition GENERIC_TEXT : string := "无法处理您的请求，请稍后重试。".
Definition QUOTA_TEXT : string :=
  "⚠️ API 调用配额已耗尽 (429 Error)。请稍作休息，或检查您的 Google AI Studio 配额。".
Definition PARSE_TEXT : string := "⚠️ 数据解析失败，建议您提供更清晰的描述或简单的图纸。".

(** [err.name === 'AbortError' || err.message === 'Aborted'] *)
Definition is_abort (err : Js.Thrown) : bool :=
  match Js.name_of err with
  | Some n => String.eqb n "AbortError"
  | None => false
  end
  || match Js.message_of err with
     | Some m => String.eqb m "Aborted"
     | None => false
     end.

(** [err.message || "..."] *)
Definition message_or_generic (err : Js.Thrown) : string :=
  match Js.message_of err with
  | Some m => if Js.truthy m then m else GENERIC_TEXT
  | None => GENERIC_TEXT
  end.

(** The condition of the quota branch. *)
Definition is_quota (err : Js.Thrown) : bool :=
  let errStr := Js.stringify_thrown err in
  Js.includes errStr "429"
  || match Js.message_of err with
     | Some m => Js.truthy m && Js.includes m "429"
     | None => false
     end
  || Js.includes errStr "quota".

(** The text of the message a failed call is reported with. *)
Definition errorMessage_of (err : Js.Thrown) : string :=
  let errorMessage := message_or_generic err in
  if is_quota err then QUOTA_TEXT
  else if Js.includes errorMessage "JSON" then PARSE_TEXT
  else errorMessage.

(** The [catch] clause. *)
Definition on_rejected (now : Z) (err : Js.Thrown) (s : State) : State :=
  if is_abort err then s
  else
    let errorMsg := ChatMessage.mk (Js.toString (now + 1)) ai (errorMessage_of err) None None in
    setMessages (fun prev => prev ++ [errorMsg]) s.

(** How the awaited call settles. *)
Inductive Settlement : Type :=
| Resolved (analysis : Analysis)
| Rejected (err : Js.Thrown).

(** [handleSendMessage] from the [await] on: [try] or [catch], then
    [finally]. *)
Definition handleSendMessage_settle (now innerWidth : Z) (t : Turn) (r : Settlement)
           (s : State) : State :=
  finally t
    match r with
    | Resolved analysis => on_resolved now innerWidth t analysis s
    | Rejected err => on_rejected now err s
    end.

(** A whole turn that nothing interleaves with: the clock reads
    [now] when the turn starts and [later] when the call settles. *)
Definition handleSendMessage (now later innerWidth : Z) (text : string)
           (attachment : option Attachment) (model : ModelOption) (mode : AppMode)
           (r : Settlement) (s : State) : State :=
  let '(s1, t) := handleSendMessage_start now text attachment model mode s in
  handleSendMessage_settle later innerWidth t r s1.

(** One input of a session of accumulate turns, each of which
    resolves before the next one starts. *)
Record GenerateTurn : Set := mkGenerateTurn {
  g_now : Z;
  g_later : Z;
  g_innerWidth : Z;
  g_text : string;
  g_attachment : option Attachment;
  g_model : ModelOption;
  g_analysis : Analysis
}.

Definition generate_turn (s : State) (g : GenerateTurn) : State :=
  handleSendMessage (g_now g) (g_later g) (g_innerWidth g) (g_text g) (g_attachment g)
                    (g_model g) GENERATE (Resolved (g_analysis g)) s.

Definition generate_turns (turns : list GenerateTurn) (s : State) : State :=
  fold_left generate_turn turns s.

(** The output the [try] block builds from a resolved call. *)
Definition result_of (t : Turn) (a : Analysis) : CNCOutput.t :=
  match optimized_text (turn_mode t) a with
  | Some gcode => CNCOutput.mk gcode (explanation a) [operation a] (stock a)
  | None =>
      Compiler.generateSiemensCode (stock a) (turn_operations t ++ [operation a])
                                   (explanation a)
  end.

(** The operation a turn of the session contributes. *)
Definition turn_operation (g : GenerateTurn) : OperationParams.t := operation (g_analysis g).

(** The ledger of the specification: the operations and the stock. *)
Definition ledger (s : State) : list OperationParams.t * StockDimensions.t :=
  (operations s, currentStock s).

End App.

(** ** The [catch] clause on every value ([App.tsx], lines 123-146) *)

Module Catch.
Import App.
Local Open Scope list_scope.

(** [err.name === 'AbortError' || err.message === 'Aborted'], of a value
    that is not nullish. *)
Definition is_abort (err : Js.Any) : bool :=
  Js.strict_equals (Js.name_any err) "AbortError"
  || Js.strict_equals (Js.message_any err) "Aborted".

(** [err.message || "..."]: the message when it is truthy, whatever it
    is, else the generic text. *)
Definition message_or_generic (err : Js.Any) : Js.Property :=
  if Js.truthy_property (Js.message_any err) then Js.message_any err
  else Js.Str GENERIC_TEXT.

(** The condition of the quota branch,
    [errStr.includes("429") || (err.message && err.message.includes("429"))
     || errStr.includes("quota")], evaluated from left to right. *)
Definition is_quota (errStr : string) (err : Js.Any) : Js.Completion bool :=
  if Js.includes errStr "429" then Js.Normal true
  else
    match (if Js.truthy_property (Js.message_any err)
           then Js.property_includes (Js.message_any err) "429"
           else Js.Normal false) with
    | Js.Throws => Js.Throws
    | Js.Normal true => Js.Normal true
    | Js.Normal false => Js.Normal (Js.includes errStr "quota")
    end.

(** The [catch] clause up to the text of the message it is about to
    append: [Normal None] is the early [return] of an abort, [Throws] a
    [TypeError] raised by the clause itself (reading [err.name] of a
    nullish value, calling [includes] on what has none). *)
Definition caught_text (err : Js.Any) : Js.Completion (option string) :=
  if Js.nullish err then Js.Throws
  else if is_abort err then Js.Normal None
  else
    let errorMessage := message_or_generic err in
    match Js.stringify_any err with
    | None => Js.Throws
    | Some errStr =>
        match is_quota errStr err with
        | Js.Throws => Js.Throws
        | Js.Normal true => Js.Normal (Some QUOTA_TEXT)
        | Js.Normal false =>
            match Js.property_includes errorMessage "JSON" with
            | Js.Throws => Js.Throws
            | Js.Normal true => Js.Normal (Some PARSE_TEXT)
            | Js.Normal false =>
                match errorMessage with
                | Js.Str m => Js.Normal (Some m)
                | _ => Js.Throws
                end
            end
        end
    end.

(** The [catch] clause: nothing is written before the last statement,
    so a clause that throws leaves the state as it found it. *)
Definition on_caught (now : Z) (err : Js.Any) (s : State) : Js.Completion State :=
  match caught_text err with
  | Js.Throws => Js.Throws
  | Js.Normal None => Js.Normal s
  | Js.Normal (Some text) =>
      Js.Normal
        (setMessages
           (fun prev => prev ++ [ChatMessage.mk (Js.toString (now + 1)) ai text None None]) s)
  end.

(** [handleSendMessage] from the [await] on, when the call rejects with
    any value: [catch], then [finally], which also runs when [catch]
    throws. *)
Definition settle_rejected (now : Z) (t : Turn) (err : Js.Any) (s : State) : State :=
  finally t
    match on_caught now err s with
    | Js.Normal s' => s'
    | Js.Throws => s
    end.

(** Whether the promise of [handleSendMessage] itself rejects. *)
Definition handler_throws (err : Js.Any) : bool :=
  match caught_text err with
  | Js.Throws => true
  | Js.Normal _ => false
  end.

(** How the awaited call settles, with any value for the rejection. *)
Inductive Outcome : Type :=
| Answer (analysis : Analysis)
| Failure (err : Js.Any).

(** A whole turn that nothing interleaves with. *)
Definition handleSendMessage_with (now later innerWidth : Z) (text : string)
           (attachment : option Attachment) (model : ModelOption) (mode : AppMode)
           (o : Outcome) (s : State) : State :=
  let '(s1, t) := handleSendMessage_start now text attachment model mode s in
  match o with
  | Answer analysis => handleSendMessage_settle later innerWidth t (Resolved analysis) s1
  | Failure err => settle_rejected later t err s1
  end.

(** The number of replies a settled call adds to the transcript. *)
Definition replies_added (o : Outcome) : nat :=
  match o with
  | Answer _ => 1
  | Failure err =>
      match caught_text err with
      | Js.Normal (Some _) => 1
      | _ => 0
      end
  end.

(** One whole turn of a session. *)
Record WholeTurn : Type := mkWholeTurn {
  w_now : Z;
  w_later : Z;
  w_innerWidth : Z;
  w_text : string;
  w_attachment : option Attachment;
  w_model : ModelOption;
  w_mode : AppMode;
  w_outcome : Outcome
}.

Definition whole_turn (s : State) (t : WholeTurn) : State :=
  handleSendMessage_with (w_now t) (w_later t) (w_innerWidth t) (w_text t) (w_attachment t)
                         (w_model t) (w_mode t) (w_outcome t) s.

Definition whole_turns (turns : list WholeTurn) (s : State) : State :=
  fold_left whole_turn turns s.

End Catch.

(** ** What the component renders from its state ([App.tsx], the JSX) *)

Module View.
Import App.

(** [activeTab !== 'sim'] *)
Definition not_sim (t : Tab) : bool :=
  match t with sim => false | _ => true end.

(** [messages.length > 0 && <button onClick={handleReset}>]: whether the
    reset button is rendered. *)
Definition reset_button_shown (s : State) : bool :=
  Nat.ltb 0 (List.length (messages s)).

(** [cncData && activeTab !== 'sim' && <span>]: whether the red dot on
    the simulation tab is rendered. *)
Definition sim_badge_shown (s : State) : bool :=
  match cncData s with
  | Some _ => not_sim (activeTab s)
  | None => false
  end.

End View.

(** ** Sessions: the handlers in sequence *)

Module Session.
Import App.
Local Open Scope list_scope.

(** What can happen to the component: the reset button, the stop button,
    a call of [handleSendMessage] (up to its [await]), and the awaited call
    of some turn settling. *)
Inductive Event : Type :=
| Reset
| Stop (now : Z)
| Send (now : Z) (text : string) (attachment : option Attachment)
       (model : ModelOption) (mode : AppMode)
| Settle (now innerWidth : Z) (t : Turn) (r : Settlement).

Definition step (s : State) (e : Event) : State :=
  match e with
  | Reset => handleReset s
  | Stop now => handleStopGeneration now s
  | Send now text attachment model mode =>
      fst (handleSendMessage_start now text attachment model mode s)
  | Settle now innerWidth t r => handleSendMessage_settle now innerWidth t r s
  end.

Definition run (events : list Event) (s : State) : State := fold_left step events s.

(** The state before [finally], for either way of settling. *)
Definition settled_body (now w : Z) (t : Turn) (r : Settlement) (s : State) : State :=
  match r with
  | Resolved a => on_resolved now w t a s
  | Rejected err => on_rejected now err s
  end.

(** The messages either way of settling appends. *)
Definition settled_messages (now : Z) (t : Turn) (r : Settlement) : list ChatMessage.t :=
  match r with
  | Resolved a =>
      [ChatMessage.mk (Js.toString (now + 1)) ai (CNCOutput.explanation (result_of t a))
                      None (Some (result_of t a))]
  | Rejected err =>
      if is_abort err then []
      else [ChatMessage.mk (Js.toString (now + 1)) ai (errorMessage_of err) None None]
  end.

(** The processing flag is set exactly while some controller is the
    current one. *)
Definition processing_matches_ref (s : State) : Prop :=
  isProcessing s = true <-> abortControllerRef s <> None.

(** Every aborted controller was allocated, and the current controller
    was allocated and is not aborted. *)
Definition controllers_ok (s : State) : Prop :=
  (forall c, In c (aborted s) -> (c < allocated s)%nat)
  /\ (forall c, abortControllerRef s = Some c ->
                (c < allocated s)%nat /\ ~ In c (aborted s)).

(** The output attached to the latest message of the transcript that
    carries one ([cncResult]). *)
Definition latest_result (msgs : list ChatMessage.t) : option CNCOutput.t :=
  fold_left (fun found m =>
               match ChatMessage.cncResult m with
               | Some r => Some r
               | None => found
               end) msgs None.

(** One whole turn of a session, with the way its call settles. *)
Record WholeTurn : Type := mkWholeTurn {
  w_now : Z;
  w_later : Z;
  w_innerWidth : Z;
  w_text : string;
  w_attachment : option Attachment;
  w_model : ModelOption;
  w_mode : AppMode;
  w_settlement : Settlement
}.

Definition whole_turn (s : State) (t : WholeTurn) : State :=
  handleSendMessage (w_now t) (w_later t) (w_innerWidth t) (w_text t) (w_attachment t)
                    (w_model t) (w_mode t) (w_settlement t) s.

Definition whole_turns (turns : list WholeTurn) (s : State) : State :=
  fold_left whole_turn turns s.

(** The operation a turn brings, if its call resolved. *)
Definition contributed (t : WholeTurn) : list OperationParams.t :=
  match w_settlement t with
  | Resolved a => [operation a]
  | Rejected _ => []
  end.

End Session.

(** ** Sample values *)

Module Samples.
Local Open Scope Q_scope.

(** A drill operation with z_start = 0, z_depth = -10, step_down = 3. *)
Definition drill : OperationParams.t :=
  OperationParams.mk MachineOperationType.DRILL 10 20 0 (-10 # 1) (Some 8) None None None
                     200 3000 8 ToolType.DRILL 3.

(** A circular pocket with diameter = 40 and tool_diameter = 6. *)
Definition pocket : OperationParams.t :=
  OperationParams.mk MachineOperationType.CIRCULAR_POCKET 50 50 0 (-5 # 1) (Some 40) None None
                     None 300 8000 6 ToolType.END_MILL 2.

Definition stock : StockDimensions.t :=
  StockDimensions.mk StockDimensions.RECTANGULAR 80 60 10 0 "Steel".

Definition analysis_drill : App.Analysis :=
  App.mkAnalysis drill stock "drill one hole" None.

Definition analysis_pocket : App.Analysis :=
  App.mkAnalysis pocket stock "mill one pocket" None.

(** The session after one accumulate turn that resolved to the drill. *)
Definition after_drill : App.State :=
  App.handleSendMessage 1000 2000 1280 "drill a hole" None gemini_2_5_flash GENERATE
                        (App.Resolved analysis_drill) App.initial.

End Samples.

(** * Properties *)

(** ** Substring search *)




(** ** The session controller *)

Section Controller.
Import App.
Local Open Scope list_scope.

(** Starting a turn appends the user message and changes neither the
    ledger nor the compiled output. *)
Lemma start_effect now text att model mode s :
  let s1 := fst (handleSendMessage_start now text att model mode s) in
  let t := snd (handleSendMessage_start now text att model mode s) in
  operations s1 = operations s /\ currentStock s1 = currentStock s /\
  cncData s1 = cncData s /\
  messages s1 = messages s ++ [ChatMessage.mk (Js.toString now) user
                                 (userMsg_text text att) (option_map data att) None] /\
  isProcessing s1 = true /\
  abortControllerRef s1 = Some (turn_controller t) /\
  turn_operations t = operations s /\ turn_mode t = mode.
Proof. destruct s; cbn. repeat split. Qed.

Lemma is_abort_name err :
  Js.name_of err = Some "AbortError" -> is_abort err = true.
Proof. unfold is_abort. now intros ->. Qed.

Lemma is_abort_message err :
  Js.message_of err = Some "Aborted" -> is_abort err = true.
Proof. unfold is_abort. intros ->. apply orb_true_r. Qed.

(** The [finally] clause touches neither ledger, output nor transcript. *)
Lemma finally_effect t s :
  operations (finally t s) = operations s /\ currentStock (finally t s) = currentStock s /\
  cncData (finally t s) = cncData s /\ messages (finally t s) = messages s.
Proof.
  unfold finally. destruct (abortControllerRef s) as [c|]; [|now repeat split].
  destruct (Nat.eqb c (turn_controller t)); destruct s; cbn; now repeat split.
Qed.

(** Once the controller of a turn is no longer the current one, its
    [finally] clause does nothing. *)
Lemma finally_stale t s :
  abortControllerRef s = None -> finally t s = s.
Proof. unfold finally. now intros ->. Qed.

(** Stopping leaves ledger and output alone, appends the stop
    message, and clears the processing flag and the current controller. *)
Lemma stop_effect now s :
  let s' := handleStopGeneration now s in
  operations s' = operations s /\ currentStock s' = currentStock s /\
  cncData s' = cncData s /\
  messages s' = messages s ++ [ChatMessage.mk (Js.toString now) ai STOP_TEXT None None] /\
  isProcessing s' = false /\ abortControllerRef s' = None.
Proof. destruct s as [p c m tab ops st [r|] ab n]; cbn; repeat split. Qed.

Lemma result_of_explanation t a : CNCOutput.explanation (result_of t a) = explanation a.
Proof. unfold result_of. now destruct (optimized_text (turn_mode t) a). Qed.

Lemma result_of_stock t a : CNCOutput.stock (result_of t a) = stock a.
Proof. unfold result_of. now destruct (optimized_text (turn_mode t) a). Qed.

(** What the [try] block commits. *)
Lemma on_resolved_effect now w t a s :
  let s' := on_resolved now w t a s in
  operations s' = CNCOutput.operations (result_of t a) /\
  currentStock s' = stock a /\
  cncData s' = Some (result_of t a) /\
  messages s'
  = messages s ++ [ChatMessage.mk (Js.toString (now + 1)) ai (explanation a) None
                                  (Some (result_of t a))] /\
  isProcessing s' = isProcessing s /\ abortControllerRef s' = abortControllerRef s.
Proof.
  unfold on_resolved, result_of.
  destruct (optimized_text (turn_mode t) a); destruct (w <? 1024)%Z;
    destruct s; cbn; repeat split.
Qed.

(** A resolved call, [finally] included. *)
Lemma settle_resolved_effect now w t a s :
  let s' := handleSendMessage_settle now w t (Resolved a) s in
  operations s' = CNCOutput.operations (result_of t a) /\
  currentStock s' = stock a /\
  cncData s' = Some (result_of t a) /\
  messages s'
  = messages s ++ [ChatMessage.mk (Js.toString (now + 1)) ai (explanation a) None
                                  (Some (result_of t a))].
Proof.
  cbv zeta. unfold handleSendMessage_settle.
  destruct (finally_effect t (on_resolved now w t a s)) as (-> & -> & -> & ->).
  destruct (on_resolved_effect now w t a s) as (H1 & H2 & H3 & H4 & _).
  now repeat split.
Qed.

(** When the controller of the turn is still the current one,
    [finally] returns the controller to idle. *)
Lemma finally_current t s :
  abortControllerRef s = Some (turn_controller t) ->
  isProcessing (finally t s) = false /\ abortControllerRef (finally t s) = None.
Proof.
  unfold finally. intros ->. rewrite Nat.eqb_refl. now destruct s.
Qed.

Lemma handleSendMessage_unfold now later w text att model mode r s :
  handleSendMessage now later w text att model mode r s
  = handleSendMessage_settle later w
      (snd (handleSendMessage_start now text att model mode s)) r
      (fst (handleSendMessage_start now text att model mode s)).
Proof.
  unfold handleSendMessage.
  now destruct (handleSendMessage_start now text att model mode s).
Qed.

(** A whole turn that resolves, with nothing in between. *)
Lemma turn_resolved_effect now later w text att model mode a s :
  let t := snd (handleSendMessage_start now text att model mode s) in
  let s' := handleSendMessage now later w text att model mode (Resolved a) s in
  operations s' = CNCOutput.operations (result_of t a) /\
  currentStock s' = stock a /\
  cncData s' = Some (result_of t a) /\
  messages s'
  = messages s
    ++ [ChatMessage.mk (Js.toString now) user (userMsg_text text att)
                       (option_map data att) None;
        ChatMessage.mk (Js.toString (later + 1)) ai (explanation a) None
                       (Some (result_of t a))] /\
  isProcessing s' = false.
Proof.
  cbv zeta. rewrite handleSendMessage_unfold.
  destruct (start_effect now text att model mode s)
    as (Ho1 & Hs1 & Hc1 & Hm1 & Hp1 & Hr1 & Hto & Htm).
  set (started := handleSendMessage_start now text att model mode s) in *.
  destruct (settle_resolved_effect later w (snd started) a (fst started))
    as (Ho & Hs & Hc & Hm).
  repeat apply conj; try assumption.
  - rewrite Hm, Hm1, <- app_assoc. reflexivity.
  - unfold handleSendMessage_settle. apply finally_current.
    destruct (on_resolved_effect later w (snd started) a (fst started))
      as (_ & _ & _ & _ & _ & ->). exact Hr1.
Qed.

Lemma optimized_text_generate a : optimized_text GENERATE a = None.
Proof. reflexivity. Qed.

Lemma append_differs {A : Type} (l : list A) (x : A) : l ++ [x] <> l.
Proof.
  intros H. apply (f_equal (@List.length A)) in H.
  rewrite length_app in H. cbn in H. lia.
Qed.

End Controller.

(** C3 (as amended): from any session state, reset empties the
    operations list, clears the compiled output and the transcript, and
    shows the chat tab; the stock keeps the value it had. *)
Theorem handleReset_effect (s : App.State) :
  App.operations (App.handleReset s) = [] /\
  App.cncData (App.handleReset s) = None /\
  App.messages (App.handleReset s) = [] /\
  App.activeTab (App.handleReset s) = App.chat /\
  App.currentStock (App.handleReset s) = App.currentStock s.
Proof. destruct s; cbn. repeat split. Qed.

(** C3 fails as stated: after a turn whose analysis brought another
    stock, reset empties the operations and the output but leaves that
    stock in place instead of the default one. *)
Lemma handleReset_keeps_stock :
  App.currentStock Samples.after_drill = Samples.stock /\
  App.operations (App.handleReset Samples.after_drill) = [] /\
  App.cncData (App.handleReset Samples.after_drill) = None /\
  App.currentStock (App.handleReset Samples.after_drill) = Samples.stock /\
  App.currentStock (App.handleReset Samples.after_drill) <> App.initialStock.
Proof.
  repeat split; try reflexivity.
  cbn. discriminate.
Qed.

(** C6: when the user stops a turn before the analysis call settles,
    the ledger is what it was before the turn, exactly one stop message
    is appended, and the controller is idle; the abort rejection that
    follows changes nothing. *)
Theorem cancel_before_resolution
        (now1 now2 now3 w : Z) (text : string) (att : option App.Attachment)
        (model : ModelOption) (mode : AppMode) (s : App.State) :
  let started := App.handleSendMessage_start now1 text att model mode s in
  let s1 := fst started in
  let t := snd started in
  let s2 := App.handleStopGeneration now2 s1 in
  App.isProcessing s1 = true /\
  App.ledger s2 = App.ledger s /\
  App.cncData s2 = App.cncData s /\
  App.messages s2
  = (App.messages s1 ++ [ChatMessage.mk (Js.toString now2) ai App.STOP_TEXT None None])%list /\
  App.isProcessing s2 = false /\
  App.abortControllerRef s2 = None /\
  In (App.turn_controller t) (App.aborted s2) /\
  App.handleSendMessage_settle now3 w t (App.Rejected Js.AbortError) s2 = s2 /\
  App.handleSendMessage_settle now3 w t (App.Rejected (Js.new_Error "Aborted")) s2 = s2.
Proof.
  destruct s; cbn. repeat split. now left.
Qed.

(** C10: a rejection whose name is AbortError or whose message is
    Aborted makes the handler return without a message of its own and
    without touching operations, stock or compiled output; the
    transcript of a cancelled turn grows by the user message and the stop
    message only. *)
Theorem abort_rejection_is_silent (err : Js.Thrown)
        (Habort : Js.name_of err = Some "AbortError" \/ Js.message_of err = Some "Aborted")
        (now1 now2 now3 w : Z) (text : string) (att : option App.Attachment)
        (model : ModelOption) (mode : AppMode) (t : App.Turn) (s : App.State) :
  (let s' := App.handleSendMessage_settle now3 w t (App.Rejected err) s in
   App.messages s' = App.messages s /\ App.operations s' = App.operations s /\
   App.currentStock s' = App.currentStock s /\ App.cncData s' = App.cncData s) /\
  (let started := App.handleSendMessage_start now1 text att model mode s in
   let s3 := App.handleSendMessage_settle now3 w (snd started) (App.Rejected err)
               (App.handleStopGeneration now2 (fst started)) in
   App.messages s3
   = (App.messages s
      ++ [ChatMessage.mk (Js.toString now1) user (App.userMsg_text text att)
                         (option_map App.data att) None;
          ChatMessage.mk (Js.toString now2) ai App.STOP_TEXT None None])%list /\
   App.operations s3 = App.operations s /\ App.currentStock s3 = App.currentStock s /\
   App.cncData s3 = App.cncData s).
Proof.
  assert (Ha : App.is_abort err = true)
    by (destruct Habort; [now apply is_abort_name | now apply is_abort_message]).
  split.
  - cbv zeta. unfold App.handleSendMessage_settle, App.on_rejected. rewrite Ha.
    destruct (finally_effect t s) as (H1 & H2 & H3 & H4). now rewrite H1, H2, H3, H4.
  - cbv zeta. unfold App.handleSendMessage_settle, App.on_rejected. rewrite Ha.
    rewrite finally_stale by (destruct s; reflexivity).
    destruct s; cbn. rewrite <- app_assoc. now repeat split.
Qed.

Lemma abort_rejection_is_silent_witness :
  (Js.name_of Js.AbortError = Some "AbortError" \/ Js.message_of Js.AbortError = Some "Aborted")
  /\ App.messages
       (App.handleSendMessage_settle 3 1280 (App.mkTurn GENERATE gemini_2_5_flash [] 0%nat "p")
          (App.Rejected Js.AbortError) Samples.after_drill)
     = App.messages Samples.after_drill.
Proof.
  split; [left; reflexivity|].
  apply (abort_rejection_is_silent Js.AbortError (or_introl eq_refl) 1 2 3 1280 "" None
           gemini_2_5_flash GENERATE (App.mkTurn GENERATE gemini_2_5_flash [] 0%nat "p")
           Samples.after_drill).
Defined.

(** C1 is violated by the code: when the analysis call of a stopped
    turn resolves all the same, the result is committed: the operation is
    appended to the operations captured at the start of the turn, the
    stock and the compiled output are overwritten and the answer is
    appended to the transcript, although the controller of the turn is no
    longer the current one. *)
Theorem stale_resolution_is_committed
        (now1 now2 now3 w : Z) (text : string) (att : option App.Attachment)
        (model : ModelOption) (a : App.Analysis) (s : App.State) :
  let started := App.handleSendMessage_start now1 text att model GENERATE s in
  let t := snd started in
  let s2 := App.handleStopGeneration now2 (fst started) in
  let s3 := App.handleSendMessage_settle now3 w t (App.Resolved a) s2 in
  let result :=
    Compiler.generateSiemensCode (App.stock a) (App.operations s ++ [App.operation a])
                                 (App.explanation a) in
  App.abortControllerRef s2 <> Some (App.turn_controller t) /\
  App.operations s2 = App.operations s /\
  App.operations s3 = (App.operations s ++ [App.operation a])%list /\
  App.operations s3 <> App.operations s2 /\
  App.currentStock s3 = App.stock a /\
  App.cncData s3 = Some result /\
  App.messages s3
  = (App.messages s2
     ++ [ChatMessage.mk (Js.toString (now3 + 1)) ai (App.explanation a) None (Some result)])%list.
Proof.
  cbv zeta.
  destruct (start_effect now1 text att model GENERATE s)
    as (Ho1 & Hs1 & Hc1 & Hm1 & Hp1 & Hr1 & Hto & Htm).
  set (started := App.handleSendMessage_start now1 text att model GENERATE s) in *.
  destruct (stop_effect now2 (fst started)) as (Ho2 & Hs2 & Hc2 & Hm2 & Hp2 & Hr2).
  destruct (settle_resolved_effect now3 w (snd started) a
              (App.handleStopGeneration now2 (fst started))) as (Ho3 & Hs3 & Hc3 & Hm3).
  assert (Hres : App.result_of (snd started) a
                 = Compiler.generateSiemensCode (App.stock a)
                     (App.operations s ++ [App.operation a]) (App.explanation a)).
  { unfold App.result_of. now rewrite Htm, optimized_text_generate, Hto. }
  rewrite Hres in *.
  repeat apply conj.
  - rewrite Hr2. discriminate.
  - now rewrite Ho2, Ho1.
  - exact Ho3.
  - rewrite Ho3, Ho2, Ho1. apply append_differs.
  - exact Hs3.
  - exact Hc3.
  - exact Hm3.
Qed.

(** C2 (as amended): in replace mode, a turn that completes with
    non-empty program text from the Analyzer leaves exactly the newly
    analysed operation in the operations list, whatever was there before;
    the stock is the new one and the text is taken over verbatim. *)
Theorem replace_mode_with_text
        (now later w : Z) (text : string) (att : option App.Attachment) (model : ModelOption)
        (a : App.Analysis) (gcode : string) (s : App.State)
        (Hgiven : App.optimized_gcode a = Some gcode) (Hnonempty : gcode <> ""%string) :
  let s' := App.handleSendMessage now later w text att model OPTIMIZE (App.Resolved a) s in
  App.operations s' = [App.operation a] /\
  List.length (App.operations s') = 1%nat /\
  App.currentStock s' = App.stock a /\
  App.cncData s'
  = Some (CNCOutput.mk gcode (App.explanation a) [App.operation a] (App.stock a)) /\
  App.isProcessing s' = false.
Proof.
  cbv zeta.
  destruct (turn_resolved_effect now later w text att model OPTIMIZE a s)
    as (Ho & Hs & Hc & _ & Hp).
  destruct (start_effect now text att model OPTIMIZE s) as (_ & _ & _ & _ & _ & _ & _ & Htm).
  assert (Hres : App.result_of (snd (App.handleSendMessage_start now text att model OPTIMIZE s)) a
                 = CNCOutput.mk gcode (App.explanation a) [App.operation a] (App.stock a)).
  { unfold App.result_of, App.optimized_text. rewrite Htm, Hgiven.
    destruct gcode; [congruence | reflexivity]. }
  rewrite Hres in *. rewrite Ho. now repeat apply conj.
Qed.

Lemma replace_mode_with_text_witness :
  let a := App.mkAnalysis Samples.pocket Samples.stock "optimised" (Some "G0 X0 Y0"%string) in
  App.operations
    (App.handleSendMessage 3000 4000 1280 "optimise" None gemini_2_5_flash OPTIMIZE
                           (App.Resolved a) Samples.after_drill)
  = [Samples.pocket].
Proof.
  cbv zeta.
  apply (replace_mode_with_text 3000 4000 1280 "optimise" None gemini_2_5_flash
           (App.mkAnalysis Samples.pocket Samples.stock "optimised" (Some "G0 X0 Y0"%string))
           "G0 X0 Y0" Samples.after_drill eq_refl).
  discriminate.
Defined.

(** C2 fails as stated: a replace-mode turn whose analysis carries no
    program text appends to the operations already there. *)
Lemma replace_mode_without_text_accumulates :
  let s' := App.handleSendMessage 3000 4000 1280 "optimise" None gemini_2_5_flash OPTIMIZE
                                  (App.Resolved Samples.analysis_pocket) Samples.after_drill in
  App.operations s' = [Samples.drill; Samples.pocket] /\
  List.length (App.operations s') = 2%nat /\
  App.operations s' <> [App.operation Samples.analysis_pocket].
Proof.
  cbv zeta.
  assert (H : App.operations
                (App.handleSendMessage 3000 4000 1280 "optimise" None gemini_2_5_flash OPTIMIZE
                   (App.Resolved Samples.analysis_pocket) Samples.after_drill)
              = [Samples.drill; Samples.pocket]) by reflexivity.
  rewrite H. repeat apply conj; [reflexivity | reflexivity | discriminate].
Qed.

(** ** Failure mapping *)

Section FailureMapping.
Import App.

Lemma includes_empty_429 : Js.includes "" "429" = false.
Proof. reflexivity. Qed.

Lemma generic_text_has_no_JSON : Js.includes GENERIC_TEXT "JSON" = false.
Proof. vm_compute. reflexivity. Qed.

(** The quota branch asks three questions; the guard on the message
    being truthy is redundant. *)
Lemma is_quota_spec err :
  is_quota err
  = Js.includes (Js.stringify_thrown err) "429"
    || match Js.message_of err with Some m => Js.includes m "429" | None => false end
    || Js.includes (Js.stringify_thrown err) "quota".
Proof.
  unfold is_quota. destruct (Js.message_of err) as [[|c m]|]; reflexivity.
Qed.

(** The parse branch looks at the message of the payload, never at its
    serialisation. *)
Lemma parse_branch_spec err :
  Js.includes (message_or_generic err) "JSON"
  = match Js.message_of err with Some m => Js.includes m "JSON" | None => false end.
Proof.
  unfold message_or_generic. destruct (Js.message_of err) as [[|c m]|]; cbn [Js.truthy].
  - now rewrite generic_text_has_no_JSON.
  - reflexivity.
  - apply generic_text_has_no_JSON.
Qed.

End FailureMapping.

Section CatchClause.
Import App.
Local Open Scope list_scope.

(** The [catch] clause, branch by branch. *)
Lemma caught_text_spec (err : Js.Any) :
  Catch.caught_text err
  = if Js.nullish err then Js.Throws
    else if Catch.is_abort err then Js.Normal None
    else match Js.stringify_any err with
         | None => Js.Throws
         | Some errStr =>
             if Js.includes errStr "429" then Js.Normal (Some QUOTA_TEXT)
             else match Js.message_any err with
                  | Js.Other true => Js.Throws
                  | Js.Str m =>
                      Js.Normal
                        (Some (if Js.includes m "429" || Js.includes errStr "quota"
                               then QUOTA_TEXT
                               else if Js.includes m "JSON" then PARSE_TEXT
                               else if Js.truthy m then m else GENERIC_TEXT))
                  | _ =>
                      Js.Normal
                        (Some (if Js.includes errStr "quota" then QUOTA_TEXT
                               else GENERIC_TEXT))
                  end
         end.
Proof.
  unfold Catch.caught_text, Catch.is_quota, Catch.message_or_generic.
  destruct (Js.nullish err); [reflexivity|].
  destruct (Catch.is_abort err); [reflexivity|].
  destruct (Js.stringify_any err) as [errStr|]; [|reflexivity].
  destruct (Js.includes errStr "429"); [reflexivity|].
  destruct (Js.message_any err) as [|[|c m]|[|]];
    cbn [Js.truthy_property Js.truthy Js.property_includes];
    rewrite ?generic_text_has_no_JSON; try reflexivity.
  - now destruct (Js.includes errStr "quota").
  - now destruct (Js.includes errStr "quota").
  - destruct (Js.includes (String c m) "429"); cbn [orb]; [reflexivity|].
    destruct (Js.includes errStr "quota"); [reflexivity|].
    now destruct (Js.includes (String c m) "JSON").
  - now destruct (Js.includes errStr "quota").
Qed.

(** On the values of [Thrown] the clause never throws and does what
    [on_rejected] does. *)
Lemma caught_text_of_thrown (err : Js.Thrown) :
  Catch.caught_text (Js.of_thrown err)
  = Js.Normal (if is_abort err then None else Some (errorMessage_of err)).
Proof.
  rewrite caught_text_spec. unfold errorMessage_of.
  rewrite is_quota_spec, parse_branch_spec. unfold message_or_generic.
  destruct err as [str|[n|] [m|] props];
    cbn [Js.of_thrown Js.nullish Js.stringify_any Js.message_any Js.property_of
         Js.message_of Js.stringify_thrown Js.stringify];
    unfold Catch.is_abort, is_abort;
    cbn [Js.name_any Js.message_any Js.of_thrown Js.property_of Js.strict_equals
         Js.name_of Js.message_of orb];
    repeat match goal with
           | |- context [String.eqb ?a ?b] => destruct (String.eqb a b); cbn [orb]
           end;
    try reflexivity;
    repeat match goal with
           | |- context [Js.includes ?a ?b] => destruct (Js.includes a b); cbn [orb]
           end;
    reflexivity.
Qed.

Lemma settle_rejected_of_thrown now w t (err : Js.Thrown) s :
  Catch.settle_rejected now t (Js.of_thrown err) s
  = handleSendMessage_settle now w t (Rejected err) s.
Proof.
  unfold Catch.settle_rejected, Catch.on_caught, handleSendMessage_settle, on_rejected.
  rewrite caught_text_of_thrown. now destruct (is_abort err).
Qed.

(** A whole turn over every value agrees with [handleSendMessage] on the
    values of [Thrown]. *)
Lemma handleSendMessage_with_agrees now later w text att model mode s :
  (forall a,
     Catch.handleSendMessage_with now later w text att model mode (Catch.Answer a) s
     = handleSendMessage now later w text att model mode (Resolved a) s)
  /\ (forall err : Js.Thrown,
        Catch.handleSendMessage_with now later w text att model mode
                                     (Catch.Failure (Js.of_thrown err)) s
        = handleSendMessage now later w text att model mode (Rejected err) s).
Proof.
  unfold Catch.handleSendMessage_with, handleSendMessage.
  destruct (handleSendMessage_start now text att model mode s) as [s1 t].
  split; [reflexivity|]. intros err. apply settle_rejected_of_thrown.
Qed.

(** What a rejection leaves of the state: the transcript grows by the
    reply, if there is one, and [finally] does the rest. *)
Lemma settle_rejected_effect now t err s :
  let s' := Catch.settle_rejected now t err s in
  messages s'
  = messages s
    ++ match Catch.caught_text err with
       | Js.Normal (Some text) =>
           [ChatMessage.mk (Js.toString (now + 1)) ai text None None]
       | _ => []
       end
  /\ operations s' = operations s /\ currentStock s' = currentStock s
  /\ cncData s' = cncData s.
Proof.
  cbv zeta. unfold Catch.settle_rejected, Catch.on_caught.
  match goal with |- context [finally t ?x] =>
    destruct (finally_effect t x) as (-> & -> & -> & ->) end.
  destruct (Catch.caught_text err) as [[text|]|]; destruct s; cbn;
    rewrite ?app_nil_r; now repeat apply conj.
Qed.

End CatchClause.

(** C4 (as amended): for a rejection that is not a cancellation, with
    any value as its payload.  A payload no property can be read of
    ([null], [undefined]) or that has no serialisation makes the [catch]
    clause throw and nothing is reported.  Otherwise the quota text is
    reported when the serialisation contains 429; failing that, a truthy
    message that is not a string (a number, [true], an object without an
    [includes] method) makes the clause throw and nothing is reported;
    failing that, the quota text is reported when the message
    contains 429 or the serialisation contains quota, else the
    parse-failure text when the message contains JSON, else the message
    itself, or the generic text when there is no message or an empty one.
    Whatever is reported is one message, and the ledger and the compiled
    output stay as they were.  A string payload has no message: it gets
    the quota text when it contains 429 or quota and the generic text
    otherwise. *)
Theorem failure_message_mapping (err : Js.Any) (now : Z) (t : App.Turn) (s : App.State)
        (Hfailure : Catch.is_abort err = false) :
  let in_serialised needle :=
    match Js.stringify_any err with
    | Some errStr => Js.includes errStr needle
    | None => false
    end in
  let in_message needle :=
    match Js.message_any err with
    | Js.Str m => Js.includes m needle
    | _ => false
    end in
  let unreadable :=
    Js.nullish err
    || match Js.stringify_any err with Some _ => false | None => true end in
  let reply : option string :=
    if unreadable then None
    else if in_serialised "429"%string then Some App.QUOTA_TEXT
    else match Js.message_any err with
         | Js.Other true => None
         | message =>
             if in_message "429"%string || in_serialised "quota"%string
             then Some App.QUOTA_TEXT
             else if in_message "JSON"%string then Some App.PARSE_TEXT
             else match message with
                  | Js.Str m => Some (if Js.truthy m then m else App.GENERIC_TEXT)
                  | _ => Some App.GENERIC_TEXT
                  end
         end in
  let s' := Catch.settle_rejected now t err s in
  App.messages s'
  = (App.messages s
     ++ match reply with
        | Some text => [ChatMessage.mk (Js.toString (now + 1)) ai text None None]
        | None => []
        end)%list
  /\ Catch.handler_throws err = match reply with Some _ => false | None => true end
  /\ App.ledger s' = App.ledger s
  /\ App.cncData s' = App.cncData s
  /\ (forall str,
        Catch.caught_text (Js.AString str)
        = Js.Normal
            (Some (if Js.includes (Js.quote str) "429" || Js.includes (Js.quote str) "quota"
                   then App.QUOTA_TEXT else App.GENERIC_TEXT)))
  /\ Catch.caught_text (Js.AObject Js.Absent Js.Absent [("code"%string, Js.JNumber 429)])
     = Js.Normal (Some App.QUOTA_TEXT)
  /\ Catch.caught_text (Js.of_thrown (Js.new_Error "Unexpected token in JSON at position 4"))
     = Js.Normal (Some App.PARSE_TEXT)
  /\ Catch.caught_text (Js.of_thrown (Js.new_Error "network down"))
     = Js.Normal (Some "network down"%string).
Proof.
  cbv zeta.
  destruct (settle_rejected_effect now t err s) as (Hm & Ho & Hs & Hc).
  unfold App.ledger, Catch.handler_throws. rewrite Hm, Ho, Hs, Hc.
  rewrite caught_text_spec, Hfailure.
  assert (Hstrings : forall str,
             Catch.caught_text (Js.AString str)
             = Js.Normal
                 (Some (if Js.includes (Js.quote str) "429"
                           || Js.includes (Js.quote str) "quota"
                        then App.QUOTA_TEXT else App.GENERIC_TEXT))).
  { intros str. rewrite caught_text_spec.
    cbn [Js.nullish Js.stringify_any Js.message_any Js.stringify].
    unfold Catch.is_abort. cbn [Js.name_any Js.message_any Js.strict_equals orb].
    now destruct (Js.includes (Js.quote str) "429"). }
  assert (Hexamples :
            Catch.caught_text (Js.AObject Js.Absent Js.Absent
                                 [("code"%string, Js.JNumber 429)])
            = Js.Normal (Some App.QUOTA_TEXT)
            /\ Catch.caught_text
                 (Js.of_thrown (Js.new_Error "Unexpected token in JSON at position 4"))
               = Js.Normal (Some App.PARSE_TEXT)
            /\ Catch.caught_text (Js.of_thrown (Js.new_Error "network down"))
               = Js.Normal (Some "network down"%string))
    by (repeat apply conj; vm_compute; reflexivity).
  destruct Hexamples as (He1 & He2 & He3).
  destruct (Js.nullish err); cbn [orb]; [now repeat apply conj|].
  destruct (Js.stringify_any err) as [errStr|]; [|now repeat apply conj].
  destruct (Js.includes errStr "429"); [now repeat apply conj|].
  destruct (Js.message_any err) as [|m|[|]]; cbn [orb].
  - destruct (Js.includes errStr "quota"); now repeat apply conj.
  - destruct (Js.includes m "429" || Js.includes errStr "quota");
      [now repeat apply conj|].
    destruct (Js.includes m "JSON"); now repeat apply conj.
  - now repeat apply conj.
  - destruct (Js.includes errStr "quota"); now repeat apply conj.
Qed.

Lemma failure_message_mapping_witness :
  let err := Js.AObject Js.Absent Js.Absent [("code"%string, Js.JNumber 429)] in
  Catch.is_abort err = false /\
  App.messages (Catch.settle_rejected 7 (App.mkTurn GENERATE gemini_2_5_flash [] 0%nat "p")
                                      err App.initial)
  = [ChatMessage.mk "8" ai App.QUOTA_TEXT None None].
Proof.
  cbv zeta. split; [reflexivity|].
  exact (proj1 (failure_message_mapping
                  (Js.AObject Js.Absent Js.Absent [("code"%string, Js.JNumber 429)])
                  7 (App.mkTurn GENERATE gemini_2_5_flash [] 0%nat "p") App.initial
                  eq_refl)).
Defined.

(** The [catch] clause on payloads of every kind. *)
Lemma failure_message_examples :
  Catch.caught_text (Js.AString "network down") = Js.Normal (Some App.GENERIC_TEXT) /\
  Catch.caught_text (Js.AString "quota exceeded") = Js.Normal (Some App.QUOTA_TEXT) /\
  Catch.caught_text (Js.AString "HTTP 429") = Js.Normal (Some App.QUOTA_TEXT) /\
  Catch.caught_text (Js.ANumber "429") = Js.Normal (Some App.QUOTA_TEXT) /\
  Catch.caught_text (Js.ANumber "0.5") = Js.Normal (Some App.GENERIC_TEXT) /\
  Catch.caught_text Js.ANull = Js.Throws /\
  Catch.caught_text Js.AUndefined = Js.Throws /\
  Catch.caught_text (Js.AObject Js.Absent (Js.Other true) [("message"%string, Js.JNumber 5)])
  = Js.Throws /\
  Catch.caught_text (Js.AObject Js.Absent (Js.Other true) [("message"%string, Js.JNumber 429)])
  = Js.Normal (Some App.QUOTA_TEXT) /\
  Catch.caught_text (Js.AObject Js.Absent (Js.Other false) [("message"%string, Js.JNumber 0)])
  = Js.Normal (Some App.GENERIC_TEXT) /\
  Catch.caught_text (Js.AUnserialisable (Js.Str "f") Js.Absent) = Js.Throws /\
  Catch.caught_text (Js.of_thrown (Js.new_Error "HTTP 429 Too Many Requests"))
  = Js.Normal (Some App.QUOTA_TEXT).
Proof. repeat apply conj; vm_compute; reflexivity. Qed.

(** C4 fails as stated: the string payload of the claim is serialised
    to a text that contains JSON and neither 429 nor quota, and yet it is
    reported with the generic text, not with the parse-failure text.
    Carried as the message of an [Error] instead, the same text is reported
    as a parse failure although the serialisation of that payload contains
    no JSON at all. *)
Lemma string_payload_is_not_parse_failure :
  let err := Js.ThrownString "Unexpected token in JSON at position 4" in
  let err' := Js.new_Error "Unexpected token in JSON at position 4" in
  App.is_abort err = false /\
  Js.includes (Js.stringify_thrown err) "429" = false /\
  Js.includes (Js.stringify_thrown err) "quota" = false /\
  Js.includes (Js.stringify_thrown err) "JSON" = true /\
  App.errorMessage_of err = App.GENERIC_TEXT /\
  App.errorMessage_of err <> App.PARSE_TEXT /\
  App.is_abort err' = false /\
  Js.stringify_thrown err' = "{}"%string /\
  Js.includes (Js.stringify_thrown err') "JSON" = false /\
  App.errorMessage_of err' = App.PARSE_TEXT.
Proof.
  cbv zeta. repeat apply conj; try (vm_compute; reflexivity).
  vm_compute. discriminate.
Qed.

(** ** Accumulate mode *)

Section Accumulate.
Import App.
Local Open Scope list_scope.

Lemma generate_turn_effect s g :
  let ops := operations s ++ [turn_operation g] in
  let s' := generate_turn s g in
  operations s' = ops /\
  currentStock s' = stock (g_analysis g) /\
  cncData s'
  = Some (Compiler.generateSiemensCode (stock (g_analysis g)) ops
                                       (explanation (g_analysis g))) /\
  isProcessing s' = false.
Proof.
  cbv zeta. unfold generate_turn.
  destruct (turn_resolved_effect (g_now g) (g_later g) (g_innerWidth g) (g_text g)
              (g_attachment g) (g_model g) GENERATE (g_analysis g) s)
    as (Ho & Hs & Hc & _ & Hp).
  destruct (start_effect (g_now g) (g_text g) (g_attachment g) (g_model g) GENERATE s)
    as (_ & _ & _ & _ & _ & _ & Hto & Htm).
  unfold result_of in *. rewrite Htm, optimized_text_generate, Hto in *.
  now repeat apply conj.
Qed.

Lemma generate_turns_operations turns s :
  operations (generate_turns turns s) = operations s ++ map App.turn_operation turns.
Proof.
  unfold generate_turns.
  revert s; induction turns as [|g turns IH]; intros s; cbn [fold_left map].
  - now rewrite app_nil_r.
  - rewrite IH.
    destruct (generate_turn_effect s g) as (-> & _). now rewrite <- app_assoc.
Qed.

Lemma generate_turns_snoc turns g s :
  generate_turns (turns ++ [g]) s = generate_turn (generate_turns turns s) g.
Proof. unfold generate_turns. now rewrite fold_left_app. Qed.

(** The blocks of a program follow the operations one to one, each
    compiled against its predecessor. *)
Lemma operation_blocks_spec st prev ops :
  Compiler.operation_blocks st prev ops
  = map (fun po => Compiler.operation_block st (fst po) (snd po))
        (combine (prev :: map Some ops) ops).
Proof.
  revert prev; induction ops as [|op ops IH]; intros prev; cbn; [reflexivity|].
  now rewrite IH.
Qed.

Lemma operation_blocks_length st prev ops :
  List.length (Compiler.operation_blocks st prev ops) = List.length ops.
Proof.
  revert prev; induction ops as [|op ops IH]; intros prev; cbn; [reflexivity|].
  now rewrite IH.
Qed.

End Accumulate.

(** C5: in accumulate mode every successful turn appends the newly
    analysed operation to the end of the operations list, overwrites the
    stock, and compiles the whole list; after N such turns from the start
    of a session the list holds the N operations in submission order and
    the compiled program consists of the header and N operation blocks,
    one per operation, in that order. *)
Theorem accumulate_mode (turns : list App.GenerateTurn) (g : App.GenerateTurn) :
  let before := App.generate_turns turns App.initial in
  let s := App.generate_turns (turns ++ [g]) App.initial in
  let ops := map App.turn_operation (turns ++ [g]) in
  let st := App.stock (App.g_analysis g) in
  let blocks := Compiler.operation_blocks st None ops in
  App.operations before = map App.turn_operation turns /\
  List.length (App.operations before) = List.length turns /\
  App.operations s = (App.operations before ++ [App.operation (App.g_analysis g)])%list /\
  App.operations s = ops /\
  List.length (App.operations s) = S (List.length turns) /\
  App.currentStock s = st /\
  App.cncData s
  = Some (Compiler.generateSiemensCode st ops (App.explanation (App.g_analysis g))) /\
  CNCOutput.gcode (Compiler.generateSiemensCode st ops (App.explanation (App.g_analysis g)))
  = Compiler.render (Compiler.header ++ List.concat blocks) /\
  List.length blocks = S (List.length turns) /\
  blocks = map (fun po => Compiler.operation_block st (fst po) (snd po))
               (combine (None :: map Some ops) ops).
Proof.
  cbv zeta. rewrite generate_turns_snoc.
  destruct (generate_turn_effect (App.generate_turns turns App.initial) g)
    as (Ho & Hs & Hc & _).
  rewrite Ho, Hs, Hc, !generate_turns_operations. cbn [App.operations App.initial app].
  rewrite operation_blocks_length, operation_blocks_spec.
  rewrite map_app, !length_app, !length_map. cbn [List.length map].
  unfold App.turn_operation at 3.
  repeat apply conj; try reflexivity; try lia.
  unfold Compiler.generateSiemensCode, Compiler.program. cbn [CNCOutput.gcode].
  now rewrite operation_blocks_spec.
Qed.

(** ** The program compiler *)

Section DepthLoop.
Import Compiler.
Local Open Scope list_scope.
Local Open Scope Q_scope.

Lemma Qlt_bool_true a b : Qlt_bool a b = true <-> a < b.
Proof.
  unfold Qlt_bool. rewrite negb_true_iff, <- not_true_iff_false, Qle_bool_iff.
  split; [apply Qnot_le_lt | apply Qlt_not_le].
Qed.

Lemma Qlt_bool_false a b : Qlt_bool a b = false <-> b <= a.
Proof.
  unfold Qlt_bool. rewrite negb_false_iff. apply Qle_bool_iff.
Qed.

Lemma Qle_bool_false a b : Qle_bool a b = false <-> b < a.
Proof.
  rewrite <- not_true_iff_false, Qle_bool_iff.
  split; [apply Qnot_le_lt | apply Qlt_not_le].
Qed.

Lemma count_S n : count (S n) == count n + 1.
Proof. unfold count. now rewrite Nat2Z.inj_succ, <- Z.add_1_r, inject_Z_plus. Qed.

Lemma count_0 : count 0 == 0.
Proof. reflexivity. Qed.

Lemma count_nonneg n : 0 <= count n.
Proof.
  unfold count. change 0 with (inject_Z 0). rewrite <- Zle_Qle. lia.
Qed.

Lemma Forall2_Qeq_map (f g : nat -> Q) (ks : list nat) (l : list Q) :
  (forall k, f k == g k) ->
  Forall2 Qeq l (map f ks) -> Forall2 Qeq l (map g ks).
Proof.
  intros Hfg. revert l; induction ks as [|k ks IH]; intros l H; inversion H; subst; cbn.
  - constructor.
  - constructor; [now rewrite <- Hfg | now apply IH].
Qed.

Lemma level_shift z step k : level (z - step) step k == level z step (S k).
Proof. unfold level. rewrite (count_S (S k)). ring. Qed.

(** With enough fuel the depth loop runs to completion: full steps
    while they stay above the target, then the target itself. *)
Lemma step_down_loop_shape (fuel : nat) : forall z step target,
  0 < step -> (0 < fuel)%nat -> z - target <= count fuel * step ->
  exists init,
    step_down_loop fuel z step target = init ++ [target]
    /\ Forall2 Qeq init (map (level z step) (seq 0 (List.length init)))
    /\ Forall (fun p => target < p) init
    /\ (forall k, (k < List.length init)%nat -> target < level z step k)
    /\ level z step (List.length init) <= target.
Proof.
  induction fuel as [|f IH]; intros z step target Hstep Hfuel Hspan; [lia|].
  cbn [step_down_loop]. cbv zeta.
  destruct (Qle_bool (z - step) target) eqn:E.
  - apply Qle_bool_iff in E. exists []. cbn. repeat apply conj.
    + reflexivity.
    + constructor.
    + constructor.
    + intros k Hk; lia.
    + unfold level. rewrite count_S, count_0. lra.
  - apply Qle_bool_false in E.
    assert (Hf : (0 < f)%nat).
    { destruct f; [|lia]. exfalso. rewrite count_S, count_0 in Hspan. lra. }
    destruct (IH (z - step) step target Hstep Hf)
      as (init & Heq & Hlv & Hall & Habove & Hend).
    { rewrite count_S in Hspan. lra. }
    exists ((z - step) :: init). rewrite Heq. cbn [List.length seq map app].
    repeat apply conj.
    + reflexivity.
    + constructor.
      * unfold level. rewrite count_S, count_0. ring.
      * rewrite <- seq_shift, map_map.
        apply Forall2_Qeq_map with (f := level (z - step) step); [|exact Hlv].
        intros k. apply level_shift.
    + now constructor.
    + intros [|k] Hk.
      * unfold level. rewrite count_S, count_0. lra.
      * rewrite <- level_shift. apply Habove. lia.
    + rewrite <- level_shift. exact Hend.
Qed.

Lemma ceiling_unique (x : Q) (m : Z) :
  inject_Z (m - 1) < x -> x <= inject_Z m -> Qceiling x = m.
Proof.
  intros Hlo Hhi.
  pose proof (Qle_ceiling x) as Hc1. pose proof (Qceiling_lt x) as Hc2.
  assert (H1 : (Qceiling x - 1 < m)%Z)
    by (rewrite Zlt_Qlt; eapply Qlt_le_trans; eassumption).
  assert (H2 : (m - 1 < Qceiling x)%Z)
    by (rewrite Zlt_Qlt; eapply Qlt_le_trans; eassumption).
  lia.
Qed.

Lemma fuel_suffices (span step : Q) :
  0 < step -> span <= count (loop_fuel span step) * step.
Proof.
  intros Hstep. unfold loop_fuel.
  assert (Hc : span / step <= count (S (Z.to_nat (Qceiling (span / step))))).
  { eapply Qle_trans; [apply Qle_ceiling|].
    unfold count. rewrite <- Zle_Qle. lia. }
  apply Qmult_le_compat_r with (z := step) in Hc; [|now apply Qlt_le_weak].
  eapply Qle_trans; [|exact Hc].
  apply Qle_lteq. right. field. intros H. rewrite H in Hstep. discriminate.
Qed.

(** The Z levels of an operation with a positive step: how many there
    are, where they lie, and that the last one is the target. *)
Lemma depth_passes_stepped (z step target : Q) :
  0 < step ->
  exists init,
    depth_passes z target step = init ++ [target]
    /\ Forall2 Qeq init (map (level z step) (seq 0 (List.length init)))
    /\ Forall (fun p => target < p) init
    /\ level z step (List.length init) <= target
    /\ List.length (depth_passes z target step)
       = Z.to_nat (Z.max 1 (Qceiling ((z - target) / step))).
Proof.
  intros Hstep. unfold depth_passes.
  destruct (Qlt_bool 0 step) eqn:E; [|apply Qlt_bool_false in E; lra].
  destruct (step_down_loop_shape (loop_fuel (z - target) step) z step target Hstep)
    as (init & Heq & Hlv & Hall & Habove & Hend).
  { unfold loop_fuel; lia. }
  { now apply fuel_suffices. }
  exists init. rewrite Heq. repeat apply conj; try assumption; try reflexivity.
  rewrite length_app. cbn [List.length]. rewrite Nat.add_1_r.
  assert (Hhi : (z - target) / step <= count (S (List.length init))).
  { apply Qle_shift_div_r; [exact Hstep|]. unfold level in Hend. lra. }
  destruct (List.length init) as [|n] eqn:En.
  - assert (Hc : (Qceiling ((z - target) / step) - 1 < 1)%Z).
    { rewrite Zlt_Qlt. eapply Qlt_le_trans; [apply Qceiling_lt|exact Hhi]. }
    rewrite Z.max_l by lia. reflexivity.
  - assert (Hlo : count (S n) < (z - target) / step).
    { apply Qlt_shift_div_l; [exact Hstep|].
      specialize (Habove n (Nat.lt_succ_diag_r n)). unfold level in Habove. lra. }
    rewrite (ceiling_unique ((z - target) / step) (Z.of_nat (S (S n)))).
    + rewrite Z.max_r by lia. now rewrite Nat2Z.id.
    + replace (Z.of_nat (S (S n)) - 1)%Z with (Z.of_nat (S n)) by lia. exact Hlo.
    + exact Hhi.
Qed.

(** Without a positive step there is a single pass to the target. *)
Lemma depth_passes_single (z step target : Q) :
  step <= 0 -> depth_passes z target step = [target].
Proof.
  intros Hstep. unfold depth_passes.
  now destruct (Qlt_bool 0 step) eqn:E; [apply Qlt_bool_true in E; lra|].
Qed.

(** In either case the passes end on the target, which none of the
    earlier ones reaches. *)
Lemma depth_passes_end (z step target : Q) :
  exists init,
    depth_passes z target step = init ++ [target] /\ Forall (fun p => target < p) init.
Proof.
  destruct (Qlt_le_dec 0 step) as [Hpos|Hnon].
  - destruct (depth_passes_stepped z step target Hpos) as (init & H1 & _ & H3 & _).
    now exists init.
  - exists []. split; [now apply depth_passes_single | constructor].
Qed.

End DepthLoop.

Section Blocks.
Import Compiler.
Local Open Scope list_scope.
Local Open Scope Q_scope.

Lemma plunges_app a b : plunges (a ++ b) = plunges a ++ plunges b.
Proof. apply flat_map_app. Qed.

Lemma xy_points_app a b : xy_points (a ++ b) = xy_points a ++ xy_points b.
Proof. apply flat_map_app. Qed.

Lemma tool_block_plunges prev op : plunges (tool_block prev op) = [].
Proof.
  unfold tool_block. destruct prev as [p|]; [destruct (same_tool p op)|]; reflexivity.
Qed.

Lemma tool_block_xy prev op : xy_points (tool_block prev op) = [].
Proof.
  unfold tool_block. destruct prev as [p|]; [destruct (same_tool p op)|]; reflexivity.
Qed.

(** Around the motion of its kind a block only moves in Z, rapidly. *)
Lemma block_plunges st prev op :
  plunges (operation_block st prev op) = plunges (body st op).
Proof.
  unfold operation_block.
  rewrite plunges_app, tool_block_plunges.
  change (RapidZ (safe_z st op) :: body st op ++ [RapidZ (safe_z st op)])
    with ([RapidZ (safe_z st op)] ++ body st op ++ [RapidZ (safe_z st op)]).
  rewrite !plunges_app. cbn. now rewrite app_nil_r.
Qed.

Lemma block_xy st prev op :
  xy_points (operation_block st prev op) = xy_points (body st op).
Proof.
  unfold operation_block.
  rewrite xy_points_app, tool_block_xy.
  change (RapidZ (safe_z st op) :: body st op ++ [RapidZ (safe_z st op)])
    with ([RapidZ (safe_z st op)] ++ body st op ++ [RapidZ (safe_z st op)]).
  rewrite !xy_points_app. cbn. now rewrite app_nil_r.
Qed.

Lemma peck_lines_plunges (ds : list Q) :
  plunges (flat_map (fun d => [LinearZ d; RapidZ (d + CHIP_RETRACT)]) ds) = ds.
Proof. induction ds as [|d ds IH]; cbn; [reflexivity | now f_equal]. Qed.

(** The plunges of a drill block. *)
Lemma drill_plunges st prev op :
  OperationParams.type op = MachineOperationType.DRILL ->
  plunges (operation_block st prev op)
  = if Qlt_bool 0 (OperationParams.step_down op)
    then peck_depths op else [OperationParams.z_depth op].
Proof.
  intros Hk. rewrite block_plunges. unfold body. rewrite Hk. unfold drill_body.
  change (plunges (?a :: ?b :: ?r)) with (plunges r).
  destruct (Qlt_bool 0 (OperationParams.step_down op)); [apply peck_lines_plunges|reflexivity].
Qed.

End Blocks.

(** C8: a drill operation with step_down > 0 is pecked in increments
    of step_down below z_start for as long as these stay above z_depth,
    and the last peck lands exactly on z_depth: no peck goes below it and
    none before the last reaches it; there are ceil((z_start -
    z_depth)/step_down) pecks (one when z_start is not above z_depth).
    With step_down = 0 there is a single plunge to z_depth. *)
Theorem drill_pecks (st : StockDimensions.t) (prev : option OperationParams.t)
        (op : OperationParams.t)
        (Hdrill : OperationParams.type op = MachineOperationType.DRILL) :
  let z_start := OperationParams.z_start op in
  let z_depth := OperationParams.z_depth op in
  let step := OperationParams.step_down op in
  let pecks := Compiler.plunges (Compiler.operation_block st prev op) in
  (0 < step ->
   exists init,
     pecks = (init ++ [z_depth])%list
     /\ Forall2 Qeq init (map (Compiler.level z_start step) (seq 0 (List.length init)))
     /\ Forall (fun p => z_depth < p) init
     /\ Compiler.level z_start step (List.length init) <= z_depth
     /\ List.length pecks = Z.to_nat (Z.max 1 (Qceiling ((z_start - z_depth) / step))))
  /\ (step == 0 -> pecks = [z_depth]).
Proof.
  cbv zeta. rewrite (drill_plunges st prev op Hdrill). split.
  - intros Hstep.
    rewrite (proj2 (Qlt_bool_true 0 (OperationParams.step_down op)) Hstep).
    apply depth_passes_stepped. exact Hstep.
  - intros Hzero.
    destruct (Compiler.Qlt_bool 0 (OperationParams.step_down op)) eqn:E; [|reflexivity].
    apply Qlt_bool_true in E. rewrite Hzero in E. discriminate.
Qed.

Lemma drill_pecks_witness :
  OperationParams.type Samples.drill = MachineOperationType.DRILL /\
  0 < OperationParams.step_down Samples.drill /\
  List.length (Compiler.plunges (Compiler.operation_block Samples.stock None Samples.drill))
  = 4%nat /\
  last (Compiler.plunges (Compiler.operation_block Samples.stock None Samples.drill)) 0
  = (-10 # 1).
Proof.
  split; [reflexivity|]. split; [reflexivity|].
  destruct (proj1 (drill_pecks Samples.stock None Samples.drill eq_refl) eq_refl)
    as (init & Heq & _ & _ & _ & Hlen).
  split.
  - exact Hlen.
  - rewrite Heq. apply last_last.
Defined.

Section CircularPocket.
Import Compiler.
Local Open Scope list_scope.
Local Open Scope Q_scope.

(** Every offset the loop produces lies between the start and the bound. *)
Lemma step_out_loop_bounds (fuel : nat) : forall r step bound,
  0 < step -> 0 <= r -> 0 <= bound ->
  Forall (fun x => 0 <= x /\ x <= bound) (step_out_loop fuel r step bound).
Proof.
  induction fuel as [|f IH]; intros r step bound Hstep Hr Hb; cbn [step_out_loop].
  - constructor.
  - cbv zeta. destruct (Qle_bool bound (r + step)) eqn:E.
    + constructor; [split; [exact Hb | apply Qle_refl] | constructor].
    + apply Qle_bool_false in E. constructor.
      * split; lra.
      * apply IH; lra.
Qed.

Lemma offsets_bounds (bound step : Q) :
  0 <= bound -> Forall (fun x => 0 <= x /\ x <= bound) (offsets bound step).
Proof.
  intros Hb. unfold offsets. destruct (Qlt_bool 0 step) eqn:E.
  - apply Qlt_bool_true in E. apply step_out_loop_bounds; [exact E | apply Qle_refl | exact Hb].
  - constructor; [split; [exact Hb | apply Qle_refl] | constructor].
Qed.

Lemma within_centre (cx cy bound : Q) : 0 <= bound -> within (cx, cy) bound (cx, cy).
Proof.
  intros Hb. split; [exact Hb|]. cbn [fst snd].
  setoid_replace ((cx - cx) * (cx - cx) + (cy - cy) * (cy - cy)) with 0 by ring.
  now apply Qmult_le_0_compat.
Qed.

Lemma within_ring (cx cy bound r : Q) :
  0 <= r -> r <= bound -> within (cx, cy) bound (cx + r, cy).
Proof.
  intros Hr Hb. split; [lra|]. cbn [fst snd].
  setoid_replace ((cx + r - cx) * (cx + r - cx) + (cy - cy) * (cy - cy)) with (r * r) by ring.
  apply Qmult_le_compat_nonneg; split; assumption.
Qed.

Lemma within_radius (c p : Q * Q) (r r' : Q) : r == r' -> within c r p -> within c r' p.
Proof.
  unfold within. intros E [H1 H2]. rewrite <- E. now split.
Qed.

Lemma ring_points (cx cy bound : Q) (rs : list Q) (p : Q * Q) :
  Forall (fun x => 0 <= x /\ x <= bound) rs ->
  In p (xy_points (flat_map (ring cx cy) rs)) -> within (cx, cy) bound p.
Proof.
  intros Hrs Hp. unfold xy_points in Hp.
  apply in_flat_map in Hp. destruct Hp as (l & Hl & Hp).
  apply in_flat_map in Hl. destruct Hl as (r & Hr & Hl).
  rewrite Forall_forall in Hrs. destruct (Hrs r Hr) as [H0 H1].
  destruct Hl as [<-|[<-|[]]]; cbn in Hp; destruct Hp as [<-|[]]; now apply within_ring.
Qed.

(** No point of a layer leaves the disc of radius [bound]. *)
Lemma circular_layer_points (cx cy bound step z : Q) (p : Q * Q) :
  0 <= bound ->
  In p (xy_points (circular_layer cx cy bound step z)) -> within (cx, cy) bound p.
Proof.
  intros Hb Hp. unfold circular_layer in Hp.
  change (xy_points (RapidXY cx cy :: LinearZ z :: ?r)) with ((cx, cy) :: xy_points r) in Hp.
  rewrite xy_points_app in Hp. cbn [In] in Hp.
  destruct Hp as [<-|Hp]; [now apply within_centre|].
  apply in_app_or in Hp. destruct Hp as [Hp|Hp].
  - eapply ring_points; [|exact Hp]. now apply offsets_bounds.
  - cbn in Hp. destruct Hp as [<-|[]]. now apply within_centre.
Qed.

Lemma ring_plunges (cx cy : Q) (rs : list Q) : plunges (flat_map (ring cx cy) rs) = [].
Proof. induction rs as [|r rs IH]; cbn; [reflexivity | exact IH]. Qed.

Lemma circular_layer_plunges (cx cy bound step z : Q) :
  plunges (circular_layer cx cy bound step z) = [z].
Proof.
  unfold circular_layer.
  change (plunges (RapidXY cx cy :: LinearZ z :: ?r)) with (z :: plunges r).
  now rewrite plunges_app, ring_plunges.
Qed.

Lemma circular_layers_plunges (cx cy bound step : Q) (zs : list Q) :
  plunges (flat_map (circular_layer cx cy bound step) zs) = zs.
Proof.
  induction zs as [|z zs IH]; [reflexivity|].
  cbn [flat_map]. rewrite plunges_app, circular_layer_plunges, IH. reflexivity.
Qed.

Lemma circular_layers_points (cx cy bound step : Q) (zs : list Q) (p : Q * Q) :
  0 <= bound ->
  In p (xy_points (flat_map (circular_layer cx cy bound step) zs)) ->
  within (cx, cy) bound p.
Proof.
  intros Hb. induction zs as [|z zs IH]; [intros []|].
  cbn [flat_map]. rewrite xy_points_app. intros Hp.
  apply in_app_or in Hp. destruct Hp as [Hp|Hp]; [|now apply IH].
  eapply circular_layer_points; eassumption.
Qed.

End CircularPocket.

(** C9: every XY coordinate the compiler emits for a circular pocket
    lies within diameter/2 - tool_diameter/2 of the pocket centre, and
    the Z layers it cuts end on z_depth exactly, which no earlier layer
    reaches; an operation without diameter, or with a tool wider than the
    pocket, gets a block that moves in neither XY nor cutting Z. *)
Theorem circular_pocket_no_gouge (st : StockDimensions.t) (prev : option OperationParams.t)
        (op : OperationParams.t)
        (Hpocket : OperationParams.type op = MachineOperationType.CIRCULAR_POCKET) :
  let block := Compiler.operation_block st prev op in
  let centre := (OperationParams.x op, OperationParams.y op) in
  let z_depth := OperationParams.z_depth op in
  Forall (fun p =>
            exists d, OperationParams.diameter op = Some d
                      /\ Compiler.within centre (d / 2 - OperationParams.tool_diameter op / 2) p)
         (Compiler.xy_points block)
  /\ ((Compiler.xy_points block = [] /\ Compiler.plunges block = [])
      \/ exists d init,
           OperationParams.diameter op = Some d
           /\ 0 <= d / 2 - OperationParams.tool_diameter op / 2
           /\ Compiler.plunges block = (init ++ [z_depth])%list
           /\ Forall (fun z => z_depth < z) init)
  /\ (forall d, OperationParams.diameter op = Some d ->
                0 <= d / 2 - OperationParams.tool_diameter op / 2 ->
                Compiler.plunges block = Compiler.peck_depths op
                /\ last (Compiler.plunges block) 0 = z_depth).
Proof.
  cbv zeta. rewrite block_xy, block_plunges.
  unfold Compiler.body. rewrite Hpocket. unfold Compiler.circular_pocket_body.
  destruct (OperationParams.diameter op) as [d|].
  2:{ repeat apply conj; [constructor | now left | discriminate]. }
  fold (Compiler.pocket_radius d op).
  destruct (Qle_bool 0 (Compiler.pocket_radius d op)) eqn:E.
  2:{ apply Qle_bool_false in E. repeat apply conj; [constructor | now left |].
      intros d' Hd' Hb. injection Hd' as <-. unfold Compiler.pocket_radius in E. lra. }
  apply Qle_bool_iff in E.
  change (Compiler.plunges (Compiler.Feed ?f :: ?r)) with (Compiler.plunges r).
  change (Compiler.xy_points (Compiler.Feed ?f :: ?r)) with (Compiler.xy_points r).
  rewrite circular_layers_plunges.
  destruct (depth_passes_end (OperationParams.z_start op) (OperationParams.step_down op)
              (OperationParams.z_depth op)) as (init & Heq & Hall).
  fold (Compiler.peck_depths op) in Heq.
  repeat apply conj.
  - apply Forall_forall. intros p Hp. exists d. split; [reflexivity|].
    eapply circular_layers_points; eassumption.
  - right. exists d, init. now repeat apply conj.
  - intros d' _ _. split; [reflexivity|]. rewrite Heq. apply last_last.
Qed.

Lemma circular_pocket_no_gouge_witness :
  OperationParams.type Samples.pocket = MachineOperationType.CIRCULAR_POCKET /\
  Forall (Compiler.within (50, 50) 17)
         (Compiler.xy_points (Compiler.operation_block Samples.stock None Samples.pocket)) /\
  last (Compiler.plunges (Compiler.operation_block Samples.stock None Samples.pocket)) 0
  = (-5 # 1).
Proof.
  split; [reflexivity|].
  destruct (circular_pocket_no_gouge Samples.stock None Samples.pocket eq_refl)
    as (Hxy & _ & Hz).
  split.
  - eapply Forall_impl; [|exact Hxy].
    intros p (d & Hd & Hin). injection Hd as <-.
    eapply within_radius; [|exact Hin]. reflexivity.
  - apply (Hz 40 eq_refl). discriminate.
Defined.

(** * Further properties of the session controller *)

Section Frames.
Import App.
Import Session.
Local Open Scope list_scope.

(** What the [catch] clause changes: the transcript, and only for a
    failure that is not an abort. *)
Lemma on_rejected_effect now err s :
  let s' := on_rejected now err s in
  operations s' = operations s /\ currentStock s' = currentStock s /\
  cncData s' = cncData s /\ activeTab s' = activeTab s /\
  isProcessing s' = isProcessing s /\ abortControllerRef s' = abortControllerRef s /\
  aborted s' = aborted s /\ allocated s' = allocated s /\
  messages s'
  = messages s
    ++ (if is_abort err then []
        else [ChatMessage.mk (Js.toString (now + 1)) ai (errorMessage_of err) None None]).
Proof.
  unfold on_rejected. destruct (is_abort err); destruct s; cbn;
    rewrite ?app_nil_r; repeat apply conj; reflexivity.
Qed.

(** What the [try] block leaves alone, and the message it appends. *)
Lemma on_resolved_frame now w t a s :
  let s' := on_resolved now w t a s in
  isProcessing s' = isProcessing s /\ abortControllerRef s' = abortControllerRef s /\
  aborted s' = aborted s /\ allocated s' = allocated s /\
  activeTab s' = (if (w <? 1024)%Z then sim else activeTab s) /\
  cncData s' = Some (result_of t a) /\
  messages s'
  = messages s
    ++ [ChatMessage.mk (Js.toString (now + 1)) ai (CNCOutput.explanation (result_of t a))
                       None (Some (result_of t a))].
Proof.
  unfold on_resolved, result_of.
  destruct (optimized_text (turn_mode t) a); destruct (w <? 1024)%Z;
    destruct s; cbn; repeat apply conj; reflexivity.
Qed.

(** What [finally] leaves alone. *)
Lemma finally_frame t s :
  activeTab (finally t s) = activeTab s /\ aborted (finally t s) = aborted s /\
  allocated (finally t s) = allocated s.
Proof.
  unfold finally. destruct (abortControllerRef s) as [c|]; [|now repeat split].
  destruct (Nat.eqb c (turn_controller t)); destruct s; cbn; now repeat split.
Qed.

(** A [finally] that belongs to another controller than the current one
    does nothing. *)
Lemma finally_other t s c :
  abortControllerRef s = Some c -> c <> turn_controller t -> finally t s = s.
Proof.
  unfold finally. intros -> Hne.
  now rewrite (proj2 (Nat.eqb_neq c (turn_controller t)) Hne).
Qed.

Lemma settle_unfold now w t r s :
  handleSendMessage_settle now w t r s = finally t (settled_body now w t r s).
Proof. destruct r; reflexivity. Qed.

Lemma settled_body_frame now w t r s :
  isProcessing (settled_body now w t r s) = isProcessing s /\
  abortControllerRef (settled_body now w t r s) = abortControllerRef s /\
  aborted (settled_body now w t r s) = aborted s /\
  allocated (settled_body now w t r s) = allocated s.
Proof.
  destruct r as [a|err]; cbn [settled_body].
  - destruct (on_resolved_frame now w t a s) as (H1 & H2 & H3 & H4 & _). now repeat split.
  - destruct (on_rejected_effect now err s) as (_ & _ & _ & _ & H1 & H2 & H3 & H4 & _).
    now repeat split.
Qed.

Lemma settle_messages now w t r s :
  messages (handleSendMessage_settle now w t r s) = messages s ++ settled_messages now t r.
Proof.
  rewrite settle_unfold.
  destruct (finally_effect t (settled_body now w t r s)) as (_ & _ & _ & ->).
  destruct r as [a|err]; cbn [settled_body settled_messages].
  - now destruct (on_resolved_frame now w t a s) as (_ & _ & _ & _ & _ & _ & ->).
  - now destruct (on_rejected_effect now err s) as (_ & _ & _ & _ & _ & _ & _ & _ & ->).
Qed.

End Frames.

Section Idle.
Import App.

(** A turn that nothing interrupts ends idle. *)
Lemma turn_always_ends_idle_aux now later w text att model mode r s :
  isProcessing (handleSendMessage now later w text att model mode r s) = false /\
  abortControllerRef (handleSendMessage now later w text att model mode r s) = None.
Proof.
  rewrite handleSendMessage_unfold, settle_unfold.
  apply finally_current.
  destruct (start_effect now text att model mode s) as (_ & _ & _ & _ & _ & Hr & _).
  destruct (settled_body_frame later w
              (snd (handleSendMessage_start now text att model mode s)) r
              (fst (handleSendMessage_start now text att model mode s)))
    as (_ & -> & _).
  exact Hr.
Qed.

End Idle.

(** X1: whatever the state a turn starts in and whichever way its call
    settles (an answer, a failure, an abort), a turn that nothing
    interrupts ends with the processing flag cleared and no current
    controller. *)
Theorem turn_always_ends_idle
        (now later w : Z) (text : string) (att : option App.Attachment)
        (model : ModelOption) (mode : AppMode) (r : App.Settlement) (s : App.State) :
  let s' := App.handleSendMessage now later w text att model mode r s in
  App.isProcessing s' = false /\ App.abortControllerRef s' = None.
Proof.
  cbv zeta. rewrite handleSendMessage_unfold, settle_unfold.
  apply finally_current.
  destruct (start_effect now text att model mode s) as (_ & _ & _ & _ & _ & Hr & _).
  destruct (settled_body_frame later w
              (snd (App.handleSendMessage_start now text att model mode s)) r
              (fst (App.handleSendMessage_start now text att model mode s)))
    as (_ & -> & _).
  exact Hr.
Qed.

(** X2: except for reset, no handler ever removes or rewrites a message:
    the transcript before the event is a prefix of the transcript after
    it, and at most one message is added. *)
Theorem transcript_only_grows (s : App.State) (e : Session.Event)
        (Hevent : e <> Session.Reset) :
  exists added,
    App.messages (Session.step s e) = (App.messages s ++ added)%list
    /\ (List.length added <= 1)%nat.
Proof.
  destruct e as [|now|now text att model mode|now w t r]; [congruence| | |];
    cbn [Session.step].
  - destruct (stop_effect now s) as (_ & _ & _ & -> & _). eexists. split; [reflexivity|].
    cbn. lia.
  - destruct (start_effect now text att model mode s) as (_ & _ & _ & -> & _).
    eexists. split; [reflexivity|]. cbn. lia.
  - rewrite settle_messages. eexists. split; [reflexivity|].
    destruct r as [a|err]; cbn; [lia|]. destruct (App.is_abort err); cbn; lia.
Qed.

Lemma transcript_only_grows_witness :
  Session.Stop 5 <> Session.Reset /\
  exists added,
    App.messages (Session.step Samples.after_drill (Session.Stop 5))
    = (App.messages Samples.after_drill ++ added)%list
    /\ (List.length added <= 1)%nat.
Proof.
  split; [discriminate|].
  apply (transcript_only_grows Samples.after_drill (Session.Stop 5)). discriminate.
Defined.

(** X3: the text a failure is reported with is never empty. *)
Theorem failure_text_never_empty (err : Js.Thrown) :
  App.errorMessage_of err <> ""%string.
Proof.
  unfold App.errorMessage_of.
  destruct (App.is_quota err); [discriminate|].
  destruct (Js.includes (App.message_or_generic err) "JSON"); [discriminate|].
  unfold App.message_or_generic.
  destruct (Js.message_of err) as [[|c m]|]; cbn; discriminate.
Qed.

(** X4: the text of the user message is never empty (the typed text, or
    the name of the uploaded file, or three dots); in accumulate mode the
    prompt sent to the Analyzer is never empty either, while in replace
    mode it is the typed text as it is, empty or not.  A typed text is used
    unchanged in both. *)
Theorem user_message_and_prompt_defaults (text : string) (att : option App.Attachment) :
  App.userMsg_text text att <> ""%string /\
  App.prompt_of text att GENERATE <> ""%string /\
  App.prompt_of text att OPTIMIZE = text /\
  (text = ""%string \/
   (App.userMsg_text text att = text /\ App.prompt_of text att GENERATE = text)).
Proof.
  unfold App.userMsg_text, App.prompt_of.
  destruct text as [|c text]; cbn [Js.truthy].
  - repeat apply conj.
    + destruct att as [a|]; cbn; discriminate.
    + destruct (App.mimeType_is att "text/plain"); [discriminate|].
      destruct (App.mimeType_is att "application/pdf"); discriminate.
    + reflexivity.
    + now left.
  - repeat apply conj; try discriminate; try reflexivity. right. now split.
Qed.



(** X6: a stopped turn whose call settles after the next turn has
    started does not end that next turn: whichever way the old call
    settles, the processing flag stays set and the current controller
    stays the one of the new turn, which is another object than the old
    one. *)
Theorem stale_turn_leaves_newer_turn_running
        (now1 now2 now3 now4 w : Z) (text1 text2 : string)
        (att1 att2 : option App.Attachment) (model1 model2 : ModelOption)
        (mode1 mode2 : AppMode) (r : App.Settlement) (s : App.State) :
  let first := App.handleSendMessage_start now1 text1 att1 model1 mode1 s in
  let stopped := App.handleStopGeneration now2 (fst first) in
  let second := App.handleSendMessage_start now3 text2 att2 model2 mode2 stopped in
  let s' := App.handleSendMessage_settle now4 w (snd first) r (fst second) in
  App.turn_controller (snd first) <> App.turn_controller (snd second) /\
  App.isProcessing s' = true /\
  App.abortControllerRef s' = Some (App.turn_controller (snd second)).
Proof.
  cbv zeta.
  set (first := App.handleSendMessage_start now1 text1 att1 model1 mode1 s).
  set (stopped := App.handleStopGeneration now2 (fst first)).
  set (second := App.handleSendMessage_start now3 text2 att2 model2 mode2 stopped).
  assert (Hne : App.turn_controller (snd first) <> App.turn_controller (snd second)).
  { subst first stopped second. destruct s; cbn. lia. }
  destruct (start_effect now3 text2 att2 model2 mode2 stopped)
    as (_ & _ & _ & _ & Hp & Hr & _).
  fold second in Hp, Hr.
  destruct (settled_body_frame now4 w (snd first) r (fst second)) as (Hp' & Hr' & _).
  rewrite settle_unfold.
  rewrite (finally_other (snd first) _ (App.turn_controller (snd second)));
    [|now rewrite Hr', Hr | congruence].
  rewrite Hp', Hr', Hp, Hr. now repeat split.
Qed.

(** X7: what a resolving accumulate turn writes into the operations
    list is the list it saw when it started, with its operation appended,
    whatever became of the list in between: a reset pressed while the call
    is pending empties the list, and the answer brings the old operations
    back. *)
Theorem resolved_turn_writes_captured_operations
        (now later w : Z) (text : string) (att : option App.Attachment) (model : ModelOption)
        (a : App.Analysis) (s between : App.State) :
  let started := App.handleSendMessage_start now text att model GENERATE s in
  App.operations (App.handleSendMessage_settle later w (snd started) (App.Resolved a) between)
  = (App.operations s ++ [App.operation a])%list
  /\ App.operations (App.handleReset (fst started)) = []
  /\ App.operations
       (App.handleSendMessage_settle later w (snd started) (App.Resolved a)
          (App.handleReset (fst started)))
     = (App.operations s ++ [App.operation a])%list.
Proof.
  cbv zeta.
  destruct (start_effect now text att model GENERATE s)
    as (_ & _ & _ & _ & _ & _ & Hto & Htm).
  assert (H : forall mid,
             App.operations
               (App.handleSendMessage_settle later w
                  (snd (App.handleSendMessage_start now text att model GENERATE s))
                  (App.Resolved a) mid)
             = (App.operations s ++ [App.operation a])%list).
  { intros mid.
    destruct (settle_resolved_effect later w
                (snd (App.handleSendMessage_start now text att model GENERATE s)) a mid)
      as (-> & _).
    unfold App.result_of. now rewrite Htm, optimized_text_generate, Hto. }
  repeat apply conj; [apply H | | apply H].
  now destruct s.
Qed.

(** X8: a rejection that counts as an abort (named AbortError, or with
    the message Aborted) ends a turn nobody stopped without any reply: the
    transcript grows by the user message alone, ledger and output stay as
    they were, and the controller is idle. *)
Theorem abort_named_failure_ends_turn_silently
        (err : Js.Thrown) (Habort : App.is_abort err = true)
        (now later w : Z) (text : string) (att : option App.Attachment)
        (model : ModelOption) (mode : AppMode) (s : App.State) :
  let s' := App.handleSendMessage now later w text att model mode (App.Rejected err) s in
  App.messages s'
  = (App.messages s
     ++ [ChatMessage.mk (Js.toString now) user (App.userMsg_text text att)
                        (option_map App.data att) None])%list /\
  App.ledger s' = App.ledger s /\
  App.cncData s' = App.cncData s /\
  App.isProcessing s' = false.
Proof.
  cbv zeta.
  destruct (turn_always_ends_idle_aux now later w text att model mode (App.Rejected err) s)
    as (Hidle & _).
  rewrite handleSendMessage_unfold in *.
  destruct (start_effect now text att model mode s) as (Ho & Hs & Hc & Hm & _).
  set (started := App.handleSendMessage_start now text att model mode s) in *.
  rewrite settle_messages. cbn [Session.settled_messages]. rewrite Habort, app_nil_r, Hm.
  unfold App.ledger.
  rewrite settle_unfold in *.
  destruct (finally_effect (snd started)
              (Session.settled_body later w (snd started) (App.Rejected err) (fst started)))
    as (-> & -> & -> & _).
  cbn [Session.settled_body].
  destruct (on_rejected_effect later err (fst started)) as (-> & -> & -> & _).
  rewrite Ho, Hs, Hc. now repeat split.
Qed.

Lemma abort_named_failure_ends_turn_silently_witness :
  App.is_abort (Js.new_Error "Aborted") = true /\
  App.isProcessing
    (App.handleSendMessage 1 2 1280 "drill" None gemini_2_5_flash GENERATE
       (App.Rejected (Js.new_Error "Aborted")) App.initial) = false.
Proof.
  split; [reflexivity|].
  apply (abort_named_failure_ends_turn_silently (Js.new_Error "Aborted") eq_refl
           1 2 1280 "drill" None gemini_2_5_flash GENERATE App.initial).
Defined.

(** X9: the stop button does not ask whether a turn is pending: pressed
    a second time it aborts nothing and changes nothing but the
    transcript, to which it adds another stop message. *)
Theorem stop_twice (now1 now2 : Z) (s : App.State) :
  let s1 := App.handleStopGeneration now1 s in
  App.handleStopGeneration now2 s1
  = App.setMessages
      (fun prev => prev ++ [ChatMessage.mk (Js.toString now2) ai App.STOP_TEXT None None])%list
      s1
  /\ App.aborted (App.handleStopGeneration now2 s1) = App.aborted s1
  /\ App.messages (App.handleStopGeneration now2 s1)
     = (App.messages s
        ++ [ChatMessage.mk (Js.toString now1) ai App.STOP_TEXT None None;
            ChatMessage.mk (Js.toString now2) ai App.STOP_TEXT None None])%list.
Proof.
  destruct s as [p c m tab ops st [r|] ab n]; cbn;
    rewrite <- app_assoc; repeat apply conj; reflexivity.
Qed.

Section Sessions.
Import App.
Import Session.
Local Open Scope list_scope.

Lemma whole_turn_unfold s t :
  whole_turn s t
  = handleSendMessage_settle (w_later t) (w_innerWidth t)
      (snd (handleSendMessage_start (w_now t) (w_text t) (w_attachment t) (w_model t)
              (w_mode t) s))
      (w_settlement t)
      (fst (handleSendMessage_start (w_now t) (w_text t) (w_attachment t) (w_model t)
              (w_mode t) s)).
Proof. unfold whole_turn. apply handleSendMessage_unfold. Qed.

(** In accumulate mode a turn adds its operation when its call resolved
    and nothing when it was rejected. *)
Lemma whole_turn_operations s t :
  w_mode t = GENERATE ->
  operations (whole_turn s t) = operations s ++ contributed t.
Proof.
  intros Hmode. rewrite whole_turn_unfold. unfold contributed.
  destruct (start_effect (w_now t) (w_text t) (w_attachment t) (w_model t) (w_mode t) s)
    as (Ho & _ & _ & _ & _ & _ & Hto & Htm).
  set (started := handleSendMessage_start (w_now t) (w_text t) (w_attachment t)
                    (w_model t) (w_mode t) s) in *.
  destruct (w_settlement t) as [a|err].
  - destruct (settle_resolved_effect (w_later t) (w_innerWidth t) (snd started) a
                (fst started)) as (-> & _).
    unfold result_of. now rewrite Htm, Hmode, optimized_text_generate, Hto.
  - rewrite settle_unfold.
    destruct (finally_effect (snd started)
                (settled_body (w_later t) (w_innerWidth t) (snd started) (Rejected err)
                   (fst started))) as (-> & _).
    cbn [settled_body].
    destruct (on_rejected_effect (w_later t) err (fst started)) as (-> & _).
    now rewrite Ho, app_nil_r.
Qed.

(** A whole turn adds the user message and the replies of its outcome. *)
Lemma whole_turn_messages s (t : Catch.WholeTurn) :
  List.length (messages (Catch.whole_turn s t))
  = (List.length (messages s) + 1 + Catch.replies_added (Catch.w_outcome t))%nat.
Proof.
  unfold Catch.whole_turn, Catch.handleSendMessage_with.
  pose proof (start_effect (Catch.w_now t) (Catch.w_text t) (Catch.w_attachment t)
                (Catch.w_model t) (Catch.w_mode t) s) as Hstart.
  destruct (handleSendMessage_start (Catch.w_now t) (Catch.w_text t) (Catch.w_attachment t)
              (Catch.w_model t) (Catch.w_mode t) s) as [s1 tt].
  cbn [fst snd] in Hstart. destruct Hstart as (_ & _ & _ & Hm & _).
  destruct (Catch.w_outcome t) as [a|err]; cbn [Catch.replies_added].
  - rewrite settle_messages, Hm, !length_app. cbn. lia.
  - destruct (settle_rejected_effect (Catch.w_later t) tt err s1) as (-> & _).
    rewrite Hm, !length_app.
    destruct (Catch.caught_text err) as [[text|]|]; cbn; lia.
Qed.

Lemma latest_result_app msgs more :
  latest_result (msgs ++ more)
  = fold_left (fun found m =>
                 match ChatMessage.cncResult m with
                 | Some r => Some r
                 | None => found
                 end) more (latest_result msgs).
Proof. unfold latest_result. apply fold_left_app. Qed.

Lemma toString_inj a b : Js.toString a = Js.toString b -> a = b.
Proof.
  assert (Hnonnil : forall z, Z.to_int z <> Decimal.Pos Decimal.Nil
                              /\ Z.to_int z <> Decimal.Neg Decimal.Nil).
  { intros z. destruct z; cbn; split; try discriminate; intros H; injection H as H;
      apply DecimalPos.Unsigned.to_uint_nonnil in H; exact H. }
  unfold Js.toString. intros H.
  destruct (Hnonnil a) as [A1 A2]. destruct (Hnonnil b) as [B1 B2].
  pose proof (NilZero.isi _ A1 A2) as Ha. pose proof (NilZero.isi _ B1 B2) as Hb.
  rewrite H in Ha. rewrite Ha in Hb. injection Hb as Hb.
  rewrite <- (DecimalZ.of_to a), <- (DecimalZ.of_to b). now rewrite Hb.
Qed.

End Sessions.

(** X10: over a session of accumulate turns, each settled before the
    next starts, the operations list grows by the operations of the turns
    whose call resolved, in order; a rejected turn, aborted or failed,
    contributes nothing. *)
Theorem accumulate_session_with_failures (turns : list Session.WholeTurn) (s : App.State)
        (Hmode : Forall (fun t => Session.w_mode t = GENERATE) turns) :
  App.operations (Session.whole_turns turns s)
  = (App.operations s ++ flat_map Session.contributed turns)%list.
Proof.
  unfold Session.whole_turns. revert s.
  induction Hmode as [|t turns Ht _ IH]; intros s; cbn [fold_left flat_map].
  - now rewrite app_nil_r.
  - rewrite IH, (whole_turn_operations s t Ht). now rewrite app_assoc.
Qed.

Lemma accumulate_session_with_failures_witness :
  let ok a := Session.mkWholeTurn 1 2 1280 "go" None gemini_2_5_flash GENERATE (App.Resolved a) in
  let ko := Session.mkWholeTurn 3 4 1280 "go" None gemini_2_5_flash GENERATE
              (App.Rejected (Js.new_Error "network down")) in
  Forall (fun t => Session.w_mode t = GENERATE)
         [ok Samples.analysis_drill; ko; ok Samples.analysis_pocket]
  /\ App.operations
       (Session.whole_turns [ok Samples.analysis_drill; ko; ok Samples.analysis_pocket]
                            App.initial)
     = [Samples.drill; Samples.pocket].
Proof.
  cbv zeta.
  assert (H : Forall (fun t => Session.w_mode t = GENERATE)
                [Session.mkWholeTurn 1 2 1280 "go" None gemini_2_5_flash GENERATE
                   (App.Resolved Samples.analysis_drill);
                 Session.mkWholeTurn 3 4 1280 "go" None gemini_2_5_flash GENERATE
                   (App.Rejected (Js.new_Error "network down"));
                 Session.mkWholeTurn 1 2 1280 "go" None gemini_2_5_flash GENERATE
                   (App.Resolved Samples.analysis_pocket)])
    by (repeat constructor).
  split; [exact H|].
  exact (accumulate_session_with_failures _ App.initial H).
Defined.

(** X11: every whole turn adds the user message and at most one reply.
    The reply is there when the call resolves and when the [catch] clause
    reports the failure; there is none when the rejection is an abort, when
    the payload is [null] or [undefined] or has no serialisation, or when
    its serialisation lacks 429 and its message is truthy without being a
    string or having an [includes] method (in the last three the [catch]
    clause itself throws).  So the
    transcript after a session is longer by one for each turn and by one
    more for each reply. *)
Theorem transcript_length_of_session (turns : list Catch.WholeTurn) (s : App.State) :
  List.length (App.messages (Catch.whole_turns turns s))
  = (List.length (App.messages s)
     + list_sum (map (fun t => 1 + Catch.replies_added (Catch.w_outcome t)) turns))%nat
  /\ (forall a, Catch.replies_added (Catch.Answer a) = 1%nat)
  /\ (forall err,
        Catch.replies_added (Catch.Failure err)
        = if Js.nullish err || Catch.is_abort err then 0%nat
          else match Js.stringify_any err with
               | None => 0%nat
               | Some errStr =>
                   if Js.includes errStr "429" then 1%nat
                   else match Js.message_any err with
                        | Js.Other true => 0%nat
                        | _ => 1%nat
                        end
               end).
Proof.
  repeat apply conj.
  - unfold Catch.whole_turns, list_sum. revert s.
    induction turns as [|t turns IH]; intros s; cbn [fold_left map fold_right].
    + lia.
    + rewrite IH, whole_turn_messages. lia.
  - reflexivity.
  - intros err. cbn [Catch.replies_added]. rewrite caught_text_spec.
    destruct (Js.nullish err); [reflexivity|]. cbn [orb].
    destruct (Catch.is_abort err); [reflexivity|].
    destruct (Js.stringify_any err) as [errStr|]; [|reflexivity].
    destruct (Js.includes errStr "429"); [reflexivity|].
    now destruct (Js.message_any err) as [|m|[|]].
Qed.

(** X12: within a turn the id of the reply differs from the id of the
    user message, provided the clock has not gone backwards between the
    start of the turn and the settling of its call. *)
Theorem reply_id_differs_from_user_id
        (now later w : Z) (text : string) (att : option App.Attachment)
        (model : ModelOption) (mode : AppMode) (r : App.Settlement) (s : App.State)
        (Hclock : (now <= later)%Z) :
  let s' := App.handleSendMessage now later w text att model mode r s in
  exists u replies,
    App.messages s' = (App.messages s ++ u :: replies)%list
    /\ ChatMessage.role u = user
    /\ ChatMessage.id u = Js.toString now
    /\ Forall (fun m => ChatMessage.role m = ai /\ ChatMessage.id m <> ChatMessage.id u)
              replies.
Proof.
  cbv zeta. rewrite handleSendMessage_unfold, settle_messages.
  destruct (start_effect now text att model mode s) as (_ & _ & _ & -> & _).
  rewrite <- app_assoc. cbn [app].
  eexists. eexists. split; [reflexivity|]. cbn [ChatMessage.role ChatMessage.id].
  repeat apply conj; try reflexivity.
  assert (Hid : Js.toString (later + 1) <> Js.toString now)
    by (intros H; apply toString_inj in H; lia).
  unfold Session.settled_messages. destruct r as [a|err].
  - repeat constructor. exact Hid.
  - destruct (App.is_abort err); repeat constructor. exact Hid.
Qed.

Lemma reply_id_differs_from_user_id_witness :
  (1000 <= 1000)%Z /\
  exists u replies,
    App.messages (App.handleSendMessage 1000 1000 1280 "drill" None gemini_2_5_flash GENERATE
                    (App.Resolved Samples.analysis_drill) App.initial)
    = (App.messages App.initial ++ u :: replies)%list
    /\ ChatMessage.role u = user
    /\ ChatMessage.id u = Js.toString 1000
    /\ Forall (fun m => ChatMessage.role m = ai /\ ChatMessage.id m <> ChatMessage.id u)
              replies.
Proof.
  split; [lia|].
  apply (reply_id_differs_from_user_id 1000 1000 1280 "drill" None gemini_2_5_flash GENERATE
           (App.Resolved Samples.analysis_drill) App.initial).
  lia.
Defined.

(** X13: reset can be pressed again without effect, hides the reset
    button and the dot on the simulation tab, and leaves a pending call
    pending (the processing flag and the current controller are not
    touched); the accumulate turn that follows a reset starts the
    operations list afresh with its own operation. *)
Theorem reset_restarts_job (s : App.State) (g : App.GenerateTurn) :
  App.handleReset (App.handleReset s) = App.handleReset s /\
  App.isProcessing (App.handleReset s) = App.isProcessing s /\
  App.abortControllerRef (App.handleReset s) = App.abortControllerRef s /\
  View.reset_button_shown (App.handleReset s) = false /\
  View.sim_badge_shown (App.handleReset s) = false /\
  App.operations (App.generate_turn (App.handleReset s) g) = [App.turn_operation g].
Proof.
  repeat apply conj; try (destruct s; reflexivity).
  destruct (generate_turn_effect (App.handleReset s) g) as (-> & _).
  now destruct s.
Qed.

(** X14: an answer switches to the simulation tab when the window is
    narrower than 1024 and leaves the tab alone otherwise, so that the dot
    on the simulation tab shows exactly when the window is wide and
    another tab is open; a failure or an abort changes neither the tab nor
    the dot. *)
Theorem tab_after_settling (now w : Z) (t : App.Turn) (s : App.State) :
  (forall a,
     let s' := App.handleSendMessage_settle now w t (App.Resolved a) s in
     App.activeTab s' = (if (w <? 1024)%Z then App.sim else App.activeTab s)
     /\ View.sim_badge_shown s'
        = (if (w <? 1024)%Z then false else View.not_sim (App.activeTab s)))
  /\ (forall err,
        let s' := App.handleSendMessage_settle now w t (App.Rejected err) s in
        App.activeTab s' = App.activeTab s
        /\ View.sim_badge_shown s' = View.sim_badge_shown s).
Proof.
  split.
  - intros a. cbv zeta. unfold View.sim_badge_shown. rewrite settle_unfold.
    destruct (finally_frame t (Session.settled_body now w t (App.Resolved a) s)) as (-> & _).
    destruct (finally_effect t (Session.settled_body now w t (App.Resolved a) s))
      as (_ & _ & -> & _).
    cbn [Session.settled_body].
    destruct (on_resolved_frame now w t a s) as (_ & _ & _ & _ & -> & -> & _).
    now destruct (w <? 1024)%Z.
  - intros err. cbv zeta. unfold View.sim_badge_shown. rewrite settle_unfold.
    destruct (finally_frame t (Session.settled_body now w t (App.Rejected err) s))
      as (-> & _).
    destruct (finally_effect t (Session.settled_body now w t (App.Rejected err) s))
      as (_ & _ & -> & _).
    cbn [Session.settled_body].
    destruct (on_rejected_effect now err s) as (_ & _ & -> & -> & _).
    now split.
Qed.

Section Invariants.
Import App.
Import Session.
Local Open Scope list_scope.

Lemma run_snoc events e s : run (events ++ [e]) s = step (run events s) e.
Proof. unfold run. now rewrite fold_left_app. Qed.

Lemma finally_keeps_processing_matches_ref t s :
  processing_matches_ref s -> processing_matches_ref (finally t s).
Proof.
  unfold processing_matches_ref, finally. intros H.
  destruct (abortControllerRef s) as [c|] eqn:E; [|now rewrite E].
  destruct (Nat.eqb c (turn_controller t)); [|now rewrite E].
  destruct s; cbn. split; [discriminate | congruence].
Qed.

Lemma step_keeps_processing_matches_ref s e :
  processing_matches_ref s -> processing_matches_ref (step s e).
Proof.
  intros H. destruct e as [|now|now text att model mode|now w t r]; cbn [step].
  - unfold processing_matches_ref in *. now destruct s.
  - unfold processing_matches_ref.
    destruct (stop_effect now s) as (_ & _ & _ & _ & -> & ->).
    split; [discriminate | congruence].
  - unfold processing_matches_ref.
    destruct (start_effect now text att model mode s) as (_ & _ & _ & _ & -> & -> & _).
    split; [discriminate | reflexivity].
  - rewrite settle_unfold. apply finally_keeps_processing_matches_ref.
    unfold processing_matches_ref in *.
    destruct (settled_body_frame now w t r s) as (-> & -> & _). exact H.
Qed.

(** [finally] never makes a controller current. *)
Lemma finally_ref t s c :
  abortControllerRef (finally t s) = Some c -> abortControllerRef s = Some c.
Proof.
  unfold finally. destruct (abortControllerRef s) as [c'|] eqn:E; [|now rewrite E].
  destruct (Nat.eqb c' (turn_controller t)); [|now rewrite E].
  destruct s; discriminate.
Qed.

Lemma finally_keeps_controllers_ok t s : controllers_ok s -> controllers_ok (finally t s).
Proof.
  unfold controllers_ok. intros [Hab Href].
  destruct (finally_frame t s) as (_ & -> & ->).
  split; [exact Hab|]. intros c Hc. apply Href. now apply finally_ref in Hc.
Qed.

Lemma step_keeps_controllers_ok s e : controllers_ok s -> controllers_ok (step s e).
Proof.
  intros [Hab Href]. destruct e as [|now|now text att model mode|now w t r]; cbn [step].
  - unfold controllers_ok. destruct s; cbn in *. now split.
  - unfold controllers_ok.
    destruct s as [p c m tab ops st [r|] ab n]; cbn in *.
    + split; [|discriminate]. intros c' [<-|Hc']; [apply (Href r eq_refl) | now apply Hab].
    + split; [exact Hab | discriminate].
  - unfold controllers_ok. destruct s as [p c m tab ops st r ab n]; cbn in *.
    split.
    + intros c' Hc'. specialize (Hab c' Hc'). lia.
    + intros c' Hc'. injection Hc' as <-. split; [lia|].
      intros Hin. specialize (Hab n Hin). lia.
  - rewrite settle_unfold. apply finally_keeps_controllers_ok.
    unfold controllers_ok.
    destruct (settled_body_frame now w t r s) as (_ & -> & -> & ->). now split.
Qed.

Lemma step_keeps_latest_result s e :
  cncData s = latest_result (messages s) ->
  cncData (step s e) = latest_result (messages (step s e)).
Proof.
  intros H. destruct e as [|now|now text att model mode|now w t r]; cbn [step].
  - now destruct s.
  - destruct (stop_effect now s) as (_ & _ & -> & -> & _).
    rewrite latest_result_app. exact H.
  - destruct (start_effect now text att model mode s) as (_ & _ & -> & -> & _).
    rewrite latest_result_app. exact H.
  - rewrite settle_messages, latest_result_app, settle_unfold.
    destruct (finally_effect t (settled_body now w t r s)) as (_ & _ & -> & _).
    destruct r as [a|err]; cbn [settled_body settled_messages].
    + destruct (on_resolved_frame now w t a s) as (_ & _ & _ & _ & _ & -> & _).
      reflexivity.
    + destruct (on_rejected_effect now err s) as (_ & _ & -> & _).
      destruct (is_abort err); exact H.
Qed.

End Invariants.

(** X15: in every state the component can reach from its initial one,
    by any sequence of resets, stops, sends and settlings in any order, the
    processing flag is set exactly while some controller is current, the
    current controller is never an aborted one, and every aborted or
    current controller is one that was created. *)
Theorem invariants_hold_in_every_session (events : list Session.Event) :
  Session.processing_matches_ref (Session.run events App.initial)
  /\ Session.controllers_ok (Session.run events App.initial).
Proof.
  induction events as [|e events [IH1 IH2]] using rev_ind.
  - split.
    + unfold Session.processing_matches_ref. cbn. split; [discriminate | congruence].
    + unfold Session.controllers_ok. cbn. split; [intros c [] | discriminate].
  - rewrite run_snoc. split.
    + now apply step_keeps_processing_matches_ref.
    + now apply step_keeps_controllers_ok.
Qed.

(** X16: in every state the component can reach from its initial one,
    the output handed to the simulation and code panels is the one
    attached to the latest message of the transcript that carries an
    output, and there is none when no message carries one. *)
Theorem output_is_latest_answer (events : list Session.Event) :
  App.cncData (Session.run events App.initial)
  = Session.latest_result (App.messages (Session.run events App.initial)).
Proof.
  induction events as [|e events IH] using rev_ind.
  - reflexivity.
  - rewrite run_snoc. now apply step_keeps_latest_result.
Qed.

(** X17: nothing in the controller keeps a turn from starting while
    another is pending: the new controller takes the place of the old one,
    which is not aborted, and the stop button then aborts the new one
    only. *)
Theorem second_send_orphans_first_controller
        (now1 now2 now3 : Z) (text1 text2 : string) (att1 att2 : option App.Attachment)
        (model1 model2 : ModelOption) (mode1 mode2 : AppMode) (s : App.State)
        (Hok : Session.controllers_ok s) :
  let first := App.handleSendMessage_start now1 text1 att1 model1 mode1 s in
  let second := App.handleSendMessage_start now2 text2 att2 model2 mode2 (fst first) in
  let stopped := App.handleStopGeneration now3 (fst second) in
  App.abortControllerRef (fst second) = Some (App.turn_controller (snd second)) /\
  App.aborted (fst second) = App.aborted s /\
  App.aborted stopped = App.turn_controller (snd second) :: App.aborted s /\
  ~ In (App.turn_controller (snd first)) (App.aborted stopped).
Proof.
  destruct Hok as [Hab _].
  destruct s as [p c m tab ops st r ab n]; cbn in *.
  repeat apply conj; try reflexivity.
  intros [H|H]; [lia|]. specialize (Hab n H). lia.
Qed.

Lemma second_send_orphans_first_controller_witness :
  Session.controllers_ok App.initial /\
  ~ In (App.turn_controller
          (snd (App.handleSendMessage_start 1 "a" None gemini_2_5_flash GENERATE App.initial)))
       (App.aborted
          (App.handleStopGeneration 3
             (fst (App.handleSendMessage_start 2 "b" None gemini_2_5_flash GENERATE
                     (fst (App.handleSendMessage_start 1 "a" None gemini_2_5_flash GENERATE
                             App.initial)))))).
Proof.
  assert (Hok : Session.controllers_ok App.initial)
    by (split; [intros c [] | discriminate]).
  split; [exact Hok|].
  exact (proj2 (proj2 (proj2
    (second_send_orphans_first_controller 1 2 3 "a" "b" None None gemini_2_5_flash
       gemini_2_5_flash GENERATE GENERATE App.initial Hok)))).
Defined.
